(** * Kairos ML forecasting service: a shallow embedding and its properties

    The development follows [services/kairos-ml/app/main.py]: the interval
    inferer [infer_step_seconds], the two forecasters
    [forecast_seasonal_naive] and [forecast_linear_trend], the timestamp
    renderer [iso_from_seconds] and the request handler [forecast].

    Python integers are [Z]; Python floats are the binary64 primitive floats
    of the kernel; a raised exception is an explicit [Raise] outcome, so every
    function of the service that can raise returns a [result]. *)

From Stdlib Require Import ZArith Lia QArith Qround Ascii String.
From Stdlib Require Import PrimFloat SpecFloat FloatOps FloatAxioms.
From Stdlib Require Uint63.
From stdpp Require Import base tactics option list numbers strings sorting gmap.

Local Open Scope Z_scope.

(** ** Exceptions and results *)

(** The exceptions the service can see: the [HTTPException] it raises itself
    and the built-in exceptions of the operations it calls. *)
Inductive exn : Type :=
  | HTTPException (status_code : Z) (detail : string)
  | IndexError
  | TypeError
  | ValueError
  | OverflowError.

Inductive result (A : Type) : Type :=
  | Ok (a : A)
  | Raise (e : exn).
Arguments Ok {A} a.
Arguments Raise {A} e.

#[global] Instance result_ret : MRet result := λ A a, Ok a.
#[global] Instance result_bind : MBind result := λ A B f m,
  match m with
  | Ok a => f a
  | Raise e => Raise e
  end.

(** A [for] loop over [xs] whose body may raise, threading the loop state. *)
Fixpoint for_each {S A : Type} (body : S → A → result S) (xs : list A) (s : S)
  : result S :=
  match xs with
  | [] => Ok s
  | x :: xs' => s' ← body s x; for_each body xs' s'
  end.

(** The body [acc.append(f(x))] of a loop that collects one value per item. *)
Definition appending {A B : Type} (f : A → result B)
    (acc : list B) (x : A) : result (list B) :=
  v ← f x; Ok (acc ++ [v]).

(** ** Python sequence operations *)

Definition py_len {A : Type} (l : list A) : Z := Z.of_nat (length l).

(** [l[i]]: a negative index counts from the end, an index out of range
    raises [IndexError]. *)
Definition py_index {A : Type} (l : list A) (i : Z) : result A :=
  let j := if i <? 0 then i + py_len l else i in
  if j <? 0 then Raise IndexError
  else match l !! Z.to_nat j with
       | Some x => Ok x
       | None => Raise IndexError
       end.

(** [range(lo, hi)]. *)
Definition py_range (lo hi : Z) : list Z := seqZ lo (hi - lo).

(** [enumerate(l, start)]. *)
Fixpoint py_enumerate {A : Type} (start : Z) (l : list A) : list (Z * A) :=
  match l with
  | [] => []
  | x :: l' => (start, x) :: py_enumerate (start + 1) l'
  end.

(** [l[start:]]: a negative [start] counts from the end and is clamped at the
    beginning of the list, a positive one is clamped at its end. *)
Definition py_slice_from {A : Type} (l : list A) (start : Z) : list A :=
  let lo := if start <? 0 then Z.max (py_len l + start) 0
            else Z.min start (py_len l) in
  drop (Z.to_nat lo) l.

(** ** Integer true division followed by [int]

    [int(s / 2)] on Python integers: [/] is true division, whose result is the
    binary64 number nearest to the exact quotient (ties to even), and raises
    [OverflowError] when that number is not finite; [int] then truncates
    toward zero. *)

(** Nearest-even rounding of a positive integer to 53 significant bits. *)
Definition round53 (s : Z) : Z :=
  let k := Z.log2 s + 1 in
  if k <=? 53 then s
  else
    let sh := k - 53 in
    let q := Z.shiftr s sh in
    let r := Z.land s (Z.ones sh) in
    let half := Z.shiftl 1 (sh - 1) in
    let q' := if (half <? r) || ((r =? half) && Z.odd q) then q + 1 else q in
    Z.shiftl q' sh.

Definition int_of_truediv2 (s : Z) : result Z :=
  let r := round53 (Z.abs s) in
  if 2 ^ 1025 <=? r then Raise OverflowError
  else Ok (Z.sgn s * (r `div` 2)).

(** ** The interval inferer *)

Definition SECONDS_PER_DAY : Z := 60 * 60 * 24.

(** The body of the loop of [infer_step_seconds]: one successive difference,
    kept when it is positive. *)
Definition diff_step (ds : list Z) (diffs : list Z) (i : Z) : result (list Z) :=
  cur ← py_index ds i;
  prev ← py_index ds (i - 1);
  let diff := cur - prev in
  Ok (if 0 <? diff then diffs ++ [diff] else diffs).

Definition infer_step_seconds (ds : list Z) : result Z :=
  if py_len ds <? 2 then Ok SECONDS_PER_DAY
  else
    diffs ← for_each (diff_step ds) (py_range 1 (py_len ds)) [];
    if bool_decide (diffs = []) then Ok SECONDS_PER_DAY
    else
      let diffs := merge_sort Z.le diffs in
      let mid := py_len diffs `div` 2 in
      if py_len diffs `mod` 2 =? 1 then py_index diffs mid
      else
        a ← py_index diffs (mid - 1);
        b ← py_index diffs mid;
        int_of_truediv2 (a + b).

(** The differences the loop collects, written on the list itself. *)
Definition successive_diffs (ds : list Z) : list Z :=
  zip_with (λ prev cur, cur - prev) ds (tail ds).

Definition positive_diffs (ds : list Z) : list Z :=
  filter (λ d, 0 < d) (successive_diffs ds).

(** The last step of [infer_step_seconds], on the sorted differences. *)
Definition median_of (sorted : list Z) : result Z :=
  let mid := py_len sorted `div` 2 in
  if py_len sorted `mod` 2 =? 1 then py_index sorted mid
  else
    a ← py_index sorted (mid - 1);
    b ← py_index sorted mid;
    int_of_truediv2 (a + b).

(** The arithmetic mean of two integers, as a rational number. *)
Definition mean2 (a b : Z) : Q := (inject_Z a + inject_Z b) / inject_Z 2.

(** ** The seasonal-repetition forecaster *)

Definition forecast_seasonal_naive {A : Type}
    (y : list A) (horizon season_length : Z) : result (list A) :=
  match y with
  | [] => Ok []
  | _ =>
    let season_length := if season_length <? 1 then 1 else season_length in
    if py_len y <? season_length then
      last ← py_index y (-1);
      Ok ((λ _, last) <$> py_range 0 horizon)
    else
      let window := py_slice_from y (- season_length) in
      for_each (appending (λ i, py_index window (i `mod` season_length)))
               (py_range 0 horizon) []
  end.

(** ** The linear-trend forecaster *)

(** Conversion of a Python integer to a float, as the mixed arithmetic of the
    forecaster performs it on list positions.  Positions are list indices and
    lengths, which CPython keeps below [2^63]; on that range [of_uint63] is
    the correctly rounded conversion. *)
Definition of_int (z : Z) : float := of_uint63 (Uint63.of_Z z).

(** [sum(y)]: accumulation from [0], left to right.  Nothing proved below
    depends on how the sum of the values is rounded. *)
Definition py_sum (y : list float) : float := foldl PrimFloat.add 0%float y.

(** One iteration of the accumulation loop of [forecast_linear_trend]. *)
Definition trend_step (x_mean y_mean : float)
    (acc : float * float) (item : Z * float) : float * float :=
  let '(var, cov) := acc in
  let '(i, val) := item in
  let dx := (of_int i - x_mean)%float in
  ((var + dx * dx)%float, (cov + dx * (val - y_mean))%float).

Definition forecast_linear_trend (y : list float) (horizon : Z)
  : result (list float) :=
  match y with
  | [] => Ok []
  | _ =>
    let n := py_len y in
    if n =? 1 then
      y0 ← py_index y 0;
      Ok ((λ _, y0) <$> py_range 0 horizon)
    else
      let x_mean := (of_int (n - 1) / 2)%float in
      let y_mean := (py_sum y / of_int n)%float in
      let '(var, cov) :=
        foldl (trend_step x_mean y_mean) (0%float, 0%float) (py_enumerate 0 y) in
      let slope := if (0 <? var)%float then (cov / var)%float else 0%float in
      let intercept := (y_mean - slope * x_mean)%float in
      Ok (foldl (λ preds j, preds ++ [(intercept + slope * of_int (n + j))%float])
                [] (py_range 0 horizon))
  end.

(** *** The least-squares line, as the specification words it

    The line fitted to the points [(i, y[i])], [i] from [0] to [n - 1]: the
    mean of the indices is [(n - 1) / 2]; covariance and variance enter
    through their ratio, in which their common normalisation cancels, so they
    are taken as the sums of the products of the deviations, accumulated in
    the order of the indices. *)

Definition index_mean (n : Z) : float := (of_int (n - 1) / 2)%float.

Definition value_mean (y : list float) : float :=
  (py_sum y / of_int (py_len y))%float.

Definition sum_sq_dev (n : Z) : float :=
  foldl (λ acc i, let dx := (of_int i - index_mean n)%float in
                  (acc + dx * dx)%float)
        0%float (py_range 0 n).

Definition sum_co_dev (y : list float) : float :=
  foldl (λ acc item, let dx := (of_int item.1 - index_mean (py_len y))%float in
                     (acc + dx * (item.2 - value_mean y))%float)
        0%float (py_enumerate 0 y).

Definition ols_slope (y : list float) : float :=
  (sum_co_dev y / sum_sq_dev (py_len y))%float.

Definition ols_intercept (y : list float) : float :=
  (value_mean y - ols_slope y * index_mean (py_len y))%float.

(** ** Calendar timestamps *)

(** [datetime.fromtimestamp] raises for an instant outside the years 1 to
    9999: [ValueError] from the year check, which is what the model raises
    (far beyond that range the platform conversion fails first, with
    [OverflowError]); nothing in the service catches either. *)

Record datetime : Type := {
  year : Z; month : Z; day : Z;
  hour : Z; minute : Z; second : Z;
  microsecond : Z
}.

Definition is_leap (y : Z) : bool :=
  (y `mod` 4 =? 0) && (negb (y `mod` 100 =? 0) || (y `mod` 400 =? 0)).

Definition days_in_month (leap : bool) (m : Z) : Z :=
  if m =? 2 then (if leap then 29 else 28)
  else if (m =? 4) || (m =? 6) || (m =? 9) || (m =? 11) then 30
  else 31.

(** Days of a common year before the first day of month [m]. *)
Definition days_before_month (m : Z) : Z :=
  nth (Z.to_nat m) [0; 0; 31; 59; 90; 120; 151; 181; 212; 243; 273; 304; 334] 0.

(** Proleptic Gregorian ordinal (day 1 is 0001-01-01) to year, month, day. *)
Definition ord2ymd (ordinal : Z) : Z * Z * Z :=
  let n := ordinal - 1 in
  let n400 := n `div` 146097 in
  let n := n `mod` 146097 in
  let n100 := n `div` 36524 in
  let n := n `mod` 36524 in
  let n4 := n `div` 1461 in
  let n := n `mod` 1461 in
  let n1 := n `div` 365 in
  let n := n `mod` 365 in
  let y := n400 * 400 + 1 + n100 * 100 + n4 * 4 + n1 in
  if (n1 =? 4) || (n100 =? 4) then (y - 1, 12, 31)
  else
    let leap := (n1 =? 3) && (negb (n4 =? 24) || (n100 =? 3)) in
    let m := Z.shiftr (n + 50) 5 in
    let preceding :=
      days_before_month m + (if (2 <? m) && leap then 1 else 0) in
    if n <? preceding then
      let m := m - 1 in
      let preceding :=
        preceding - days_in_month leap m in
      (y, m, n - preceding + 1)
    else (y, m, n - preceding + 1).

Definition MIN_TIMESTAMP : Z := -62135596800.
Definition MAX_TIMESTAMP : Z := 253402300799.

(** [datetime.fromtimestamp(seconds, tz=timezone.utc)] for an integer number
    of seconds. *)
Definition fromtimestamp_utc (seconds : Z) : result datetime :=
  if (seconds <? MIN_TIMESTAMP) || (MAX_TIMESTAMP <? seconds) then
    Raise ValueError
  else
    let days := seconds `div` 86400 in
    let rem := seconds `mod` 86400 in
    let '(y, m, d) := ord2ymd (days + 719163) in
    Ok {| year := y; month := m; day := d;
          hour := rem `div` 3600; minute := (rem `mod` 3600) `div` 60;
          second := rem `mod` 60; microsecond := 0 |}.

Definition replace_microsecond (d : datetime) (us : Z) : datetime :=
  {| year := year d; month := month d; day := day d;
     hour := hour d; minute := minute d; second := second d;
     microsecond := us |}.

Definition digit_char (d : Z) : ascii :=
  ascii_of_nat (48 + Z.to_nat (d `mod` 10)).

(** [%0wd] for a field of at most [w] decimal digits. *)
Fixpoint fmt_digits (w : nat) (n : Z) : string :=
  match w with
  | O => EmptyString
  | S w' => String (digit_char (n `div` 10 ^ Z.of_nat w')) (fmt_digits w' n)
  end.

(** [isoformat()] of an aware datetime in UTC. *)
Definition isoformat (d : datetime) : string :=
  fmt_digits 4 (year d) +:+ "-" +:+ fmt_digits 2 (month d) +:+ "-"
    +:+ fmt_digits 2 (day d) +:+ "T"
    +:+ fmt_digits 2 (hour d) +:+ ":" +:+ fmt_digits 2 (minute d) +:+ ":"
    +:+ fmt_digits 2 (second d)
    +:+ (if microsecond d =? 0 then "" else "." +:+ fmt_digits 6 (microsecond d))
    +:+ "+00:00".

(** [s.replace(old, new)] for a non-empty [old]: occurrences are replaced
    from the left and do not overlap.  [skip] counts the characters of an
    occurrence still to be dropped. *)
Fixpoint str_replace_go (old new : string) (skip : nat) (s : string) : string :=
  match s with
  | EmptyString => EmptyString
  | String c s' =>
    match skip with
    | S k => str_replace_go old new k s'
    | O =>
      if String.prefix old s
      then new +:+ str_replace_go old new (String.length old - 1) s'
      else String c (str_replace_go old new 0 s')
    end
  end.

Definition str_replace (old new s : string) : string :=
  str_replace_go old new 0 s.

Definition iso_from_seconds (seconds : Z) : result string :=
  d ← fromtimestamp_utc seconds;
  Ok (str_replace "+00:00" "Z" (isoformat (replace_microsecond d 0))).

(** *** Reading a timestamp back

    The instant a string of the form [YYYY-MM-DDTHH:MM:SSZ] denotes, in
    seconds since the epoch: the reference against which the rendering is
    checked.  Only that form is accepted: four, two, two, two, two and two
    decimal digits with the separators [-], [-], [T], [:], [:] and the
    suffix [Z]. *)

Definition digit_val (c : ascii) : option Z :=
  let n := Z.of_nat (nat_of_ascii c) in
  if (48 <=? n) && (n <=? 57) then Some (n - 48) else None.

Fixpoint digits_val (cs : list ascii) (acc : Z) : option Z :=
  match cs with
  | [] => Some acc
  | c :: cs' => v ← digit_val c; digits_val cs' (10 * acc + v)
  end.

Definition days_before_year (y : Z) : Z :=
  let p := y - 1 in p * 365 + p `div` 4 - p `div` 100 + p `div` 400.

Definition ymd2ord (y m d : Z) : Z :=
  days_before_year y + days_before_month m
  + (if (2 <? m) && is_leap y then 1 else 0) + d.

Definition parse_iso_utc (s : string) : option Z :=
  match list_ascii_of_string s with
  | [y1; y2; y3; y4; sep1; m1; m2; sep2; d1; d2; sepT;
     h1; h2; sep3; mi1; mi2; sep4; s1; s2; zone] =>
    if Ascii.eqb sep1 "-" && Ascii.eqb sep2 "-" && Ascii.eqb sepT "T"
       && Ascii.eqb sep3 ":" && Ascii.eqb sep4 ":" && Ascii.eqb zone "Z"
    then
      y ← digits_val [y1; y2; y3; y4] 0;
      m ← digits_val [m1; m2] 0;
      d ← digits_val [d1; d2] 0;
      hh ← digits_val [h1; h2] 0;
      mi ← digits_val [mi1; mi2] 0;
      ss ← digits_val [s1; s2] 0;
      if (1 <=? y) && (1 <=? m) && (m <=? 12) && (1 <=? d)
         && (d <=? days_in_month (is_leap y) m)
         && (hh <? 24) && (mi <? 60) && (ss <? 60)
      then Some ((ymd2ord y m d - 719163) * 86400 + hh * 3600 + mi * 60 + ss)
      else None
    else None
  | _ => None
  end.

(** *** A checker for one calendar cycle

    [cycle_ok r] checks, for day [r] of the first 400 years, that [ord2ymd]
    yields a date of the calendar whose ordinal is [r + 1];
    [all_in_block f k lo] checks [f] on the [2^k] integers from [lo]. *)

Definition cycle_ok (r : Z) : bool :=
  let '(y, m, d) := ord2ymd (r + 1) in
  (1 <=? y) && (y <=? 400) && (1 <=? m) && (m <=? 12) && (1 <=? d)
  && (d <=? days_in_month (is_leap y) m) && (ymd2ord y m d =? r + 1).

Fixpoint all_in_block (f : Z → bool) (k : nat) (lo : Z) : bool :=
  match k with
  | O => f lo
  | S k' => all_in_block f k' lo && all_in_block f k' (lo + 2 ^ Z.of_nat k')
  end.

(** ** Configuration values and [int] *)

(** The values a [Dict[str, Any]] read from a JSON body can hold. *)
#[local] Unset Elimination Schemes.
Inductive pyvalue : Type :=
  | PyNone
  | PyBool (b : bool)
  | PyInt (z : Z)
  | PyFloat (f : float)
  | PyStr (s : string)
  | PyList (l : list pyvalue)
  | PyDict (d : list (string * pyvalue)).
#[local] Set Elimination Schemes.

(** [int(f)]: truncation toward zero; [nan] and the infinities raise. *)
Definition int_of_float (f : float) : result Z :=
  match Prim2SF f with
  | S754_nan => Raise ValueError
  | S754_infinity _ => Raise OverflowError
  | S754_zero _ => Ok 0
  | S754_finite s m e =>
    Ok (cond_Zopp s (if 0 <=? e then Z.pos m * 2 ^ e
                     else Z.pos m `div` 2 ^ (- e)))
  end.

Definition is_space (c : ascii) : bool :=
  let n := Z.of_nat (nat_of_ascii c) in
  ((9 <=? n) && (n <=? 13)) || ((28 <=? n) && (n <=? 32)).

Definition is_digit (c : ascii) : bool :=
  let n := Z.of_nat (nat_of_ascii c) in (48 <=? n) && (n <=? 57).

Fixpoint lstrip (s : list ascii) : list ascii :=
  match s with
  | c :: s' => if is_space c then lstrip s' else s
  | [] => []
  end.

Definition strip (s : list ascii) : list ascii :=
  reverse (lstrip (reverse (lstrip s))).

(** Decimal digits, single underscores allowed between two digits; returns
    the value and the number of digits. *)
Fixpoint parse_digits (s : list ascii) (acc : Z) (count : Z) (after_digit : bool)
  : option (Z * Z) :=
  match s with
  | [] => if after_digit then Some (acc, count) else None
  | c :: s' =>
    if is_digit c then
      parse_digits s' (10 * acc + (Z.of_nat (nat_of_ascii c) - 48)) (count + 1) true
    else if Ascii.eqb c "_" && after_digit then parse_digits s' acc count false
    else None
  end.

(** The default limit of [int] on the number of digits of a string. *)
Definition MAX_STR_DIGITS : Z := 4300.

(** [int(s)] in base 10. *)
Definition int_of_str (s : string) : result Z :=
  let body := strip (list_ascii_of_string s) in
  let '(negative, digits) :=
    match body with
    | c :: rest =>
      if Ascii.eqb c "-" then (true, rest)
      else if Ascii.eqb c "+" then (false, rest)
      else (false, body)
    | [] => (false, body)
    end in
  match parse_digits digits 0 0 false with
  | Some (v, count) =>
    if MAX_STR_DIGITS <? count then Raise ValueError
    else Ok (if negative then - v else v)
  | None => Raise ValueError
  end.

Definition py_int (v : pyvalue) : result Z :=
  match v with
  | PyNone => Raise TypeError
  | PyBool b => Ok (if b then 1 else 0)
  | PyInt z => Ok z
  | PyFloat f => int_of_float f
  | PyStr s => int_of_str s
  | PyList _ => Raise TypeError
  | PyDict _ => Raise TypeError
  end.

(** ** Request, response and the handler *)

Record ForecastRequest : Type := {
  model : string;
  ds : list Z;
  y : list float;
  horizon : Z;
  config : option (gmap string pyvalue)
}.

Record ForecastPoint : Type := {
  t : string;
  yhat : float;
  yhatLower : option float;
  yhatUpper : option float;
  isFuture : bool
}.

Record ForecastMetrics : Type := {
  sampleCount : Z;
  mae : option float;
  rmse : option float;
  mape : option float
}.

Record ForecastMeta : Type := {
  meta_horizon : Z;
  historyCount : Z;
  intervalLevel : option float;
  metrics : ForecastMetrics
}.

Record ForecastResponse : Type := {
  points : list ForecastPoint;
  meta : ForecastMeta
}.

(** [int((req.config or {}).get("seasonLength", 7))]. *)
Definition season_length_of (cfg : option (gmap string pyvalue)) : result Z :=
  py_int (default (PyInt 7) (default ∅ cfg !! "seasonLength"%string)).

(** The model dispatch of [forecast]. *)
Definition dispatch (req : ForecastRequest) : result (list float) :=
  if String.eqb (model req) "ETS" then
    season_length ← season_length_of (config req);
    forecast_seasonal_naive (y req) (horizon req) season_length
  else if String.eqb (model req) "PROPHET" then
    forecast_linear_trend (y req) (horizon req)
  else Raise (HTTPException 400 ("Unsupported model: " +:+ model req)).

(** The point that the loop of [forecast] builds from one enumerated
    prediction. *)
Definition make_point (last_ds step : Z) (item : Z * float)
  : result ForecastPoint :=
  let '(i, yhat) := item in
  ts ← iso_from_seconds (last_ds + step * i);
  Ok {| t := ts; yhat := yhat; yhatLower := None; yhatUpper := None;
        isFuture := true |}.

Definition forecast (req : ForecastRequest) : result ForecastResponse :=
  if negb (py_len (ds req) =? py_len (y req)) then
    Raise (HTTPException 400 "Training data length mismatch.")
  else if py_len (ds req) <? 2 then
    Raise (HTTPException 400 "At least 2 observations are required.")
  else
    step ← infer_step_seconds (ds req);
    last_ds ← py_index (ds req) (-1);
    preds ← dispatch req;
    points ← for_each (appending (make_point last_ds step))
                       (py_enumerate 1 preds) [];
    Ok {| points := points;
          meta := {| meta_horizon := horizon req;
                     historyCount := py_len (ds req);
                     intervalLevel := None;
                     metrics := {| sampleCount := 0; mae := None;
                                   rmse := None; mape := None |} |} |}.

(** The errors the handler reports itself. *)
Definition is_http (e : exn) : Prop :=
  match e with HTTPException _ _ => True | _ => False end.

(** A failure with status 400. *)
Definition fails_400 {A : Type} (r : result A) : Prop :=
  ∃ detail, r = Raise (HTTPException 400 detail).

(** The model selectors the dispatch knows. *)
Definition recognized (m : string) : Prop := m = "ETS"%string ∨ m = "PROPHET"%string.

(** The points a caller receives: those of the response, none on an error. *)
Definition response_points (r : result ForecastResponse) : list ForecastPoint :=
  match r with
  | Ok resp => points resp
  | Raise _ => []
  end.

(** *** Classes of binary64 values *)

(** Zero, finite or infinite with sign [s]: not a NaN. *)
Definition sf_signed (s : bool) (x : spec_float) : Prop :=
  match x with
  | S754_zero s' | S754_infinity s' | S754_finite s' _ _ => s' = s
  | S754_nan => False
  end.

(** Strictly positive, finite or infinite. *)
Definition sf_positive (x : spec_float) : Prop :=
  match x with
  | S754_infinity false | S754_finite false _ _ => True
  | _ => False
  end.

(** Finite and strictly positive, with its exponent between [lo] and [hi]. *)
Definition sf_finite_pos (lo hi : Z) (x : spec_float) : Prop :=
  match x with
  | S754_finite false _ e => lo ≤ e ≤ hi
  | _ => False
  end.

(** Not a NaN. *)
Definition sf_number (x : spec_float) : Prop :=
  match x with
  | S754_nan => False
  | _ => True
  end.

(** The float [x] is a NaN. *)
Definition float_is_nan (x : float) : Prop := Prim2SF x = S754_nan.

(** *** Two worked requests and their responses *)

Definition seasonal_example_request : ForecastRequest :=
  {| model := "ETS"; ds := [0; 86400; 172800; 259200];
     y := [1; 2; 3; 4]%float; horizon := 4;
     config := Some {[ "seasonLength"%string := PyInt 2 ]} |}.

Definition future_point (ts : string) (v : float) : ForecastPoint :=
  {| t := ts; yhat := v; yhatLower := None; yhatUpper := None;
     isFuture := true |}.

Definition unset_meta (h n : Z) : ForecastMeta :=
  {| meta_horizon := h; historyCount := n; intervalLevel := None;
     metrics := {| sampleCount := 0; mae := None; rmse := None;
                   mape := None |} |}.

Definition seasonal_example_response : ForecastResponse :=
  {| points := [future_point "1970-01-05T00:00:00Z" 3;
                future_point "1970-01-06T00:00:00Z" 4;
                future_point "1970-01-07T00:00:00Z" 3;
                future_point "1970-01-08T00:00:00Z" 4];
     meta := unset_meta 4 4 |}.

Definition trend_example_request : ForecastRequest :=
  {| model := "PROPHET"; ds := [0; 86400; 172800];
     y := [1; 2; 3]%float; horizon := 2; config := None |}.

Definition trend_example_response : ForecastResponse :=
  {| points := [future_point "1970-01-04T00:00:00Z" 4;
                future_point "1970-01-05T00:00:00Z" 5];
     meta := unset_meta 2 3 |}.

(** * Properties *)

(** Linear arithmetic with division and remainder by constants. *)
Ltac divlia := Z.to_euclidean_division_equations; lia.

(** ** Results *)

Lemma bind_Ok {A B : Type} (f : A → result B) (a : A) : (Ok a ≫= f) = f a.
Proof. reflexivity. Qed.

Lemma bind_Ok_inv {A B : Type} (f : A → result B) (m : result A) (b : B) :
  (m ≫= f) = Ok b → ∃ a, m = Ok a ∧ f a = Ok b.
Proof. destruct m as [a|e]; simpl; [eauto | discriminate]. Qed.

(** ** Indexing *)

Lemma py_index_lookup {A : Type} (l : list A) (n : nat) (x : A) :
  l !! n = Some x → py_index l (Z.of_nat n) = Ok x.
Proof.
  intros H. unfold py_index.
  destruct (Z.ltb_spec (Z.of_nat n) 0) as [?|_]; [lia|].
  destruct (Z.ltb_spec (Z.of_nat n) 0) as [?|_]; [lia|].
  rewrite Nat2Z.id, H. reflexivity.
Qed.

Lemma py_index_nonneg {A : Type} (l : list A) (i : Z) (x : A) :
  0 ≤ i → l !! Z.to_nat i = Some x → py_index l i = Ok x.
Proof.
  intros Hi H. rewrite <- (Z2Nat.id i) by done. by apply py_index_lookup.
Qed.

Lemma py_index_last {A : Type} (l : list A) (x : A) :
  last l = Some x → py_index l (-1) = Ok x.
Proof.
  intros H. unfold py_index, py_len. simpl.
  assert (l ≠ []) as Hne by (intros ->; discriminate).
  assert (0 < length l)%nat by (destruct l; simpl; [done | lia]).
  destruct (Z.ltb_spec (-1 + Z.of_nat (length l)) 0) as [?|_]; [lia|].
  replace (Z.to_nat (-1 + Z.of_nat (length l))) with (pred (length l)) by lia.
  rewrite <- last_lookup, H. reflexivity.
Qed.

Lemma py_index_Ok_inv {A : Type} (l : list A) (i : Z) (x : A) :
  py_index l i = Ok x → x ∈ l.
Proof.
  unfold py_index. intros H.
  destruct (_ <? 0); [discriminate|].
  destruct (l !! _) eqn:E; [|discriminate].
  injection H as <-. by eapply list_elem_of_lookup_2.
Qed.

(** ** The loop of the interval inferer *)

Lemma seqZ_step (m n : Z) : 0 < n → seqZ m n = m :: seqZ (m + 1) (n - 1).
Proof. intros. rewrite seqZ_cons by done. do 2 f_equal; lia. Qed.

Lemma positive_diffs_cons2 (a b : Z) (rest : list Z) :
  positive_diffs (a :: b :: rest) =
  (if 0 <? b - a then [b - a] else []) ++ positive_diffs (b :: rest).
Proof.
  unfold positive_diffs, successive_diffs. simpl.
  rewrite filter_cons. destruct (Z.ltb_spec 0 (b - a)); case_decide; (done || lia).
Qed.

Lemma diff_step_at (pre : list Z) (a b : Z) (rest acc : list Z) :
  diff_step (pre ++ a :: b :: rest) acc (py_len pre + 1)
  = Ok (if 0 <? b - a then acc ++ [b - a] else acc).
Proof.
  unfold diff_step.
  assert (py_index (pre ++ a :: b :: rest) (py_len pre + 1) = Ok b) as ->.
  { apply py_index_nonneg; [unfold py_len; lia|].
    unfold py_len.
    replace (Z.to_nat (Z.of_nat (length pre) + 1)) with (length pre + 1)%nat by lia.
    rewrite lookup_app_r by lia.
    by replace (length pre + 1 - length pre)%nat with 1%nat by lia. }
  assert (py_index (pre ++ a :: b :: rest) (py_len pre + 1 - 1) = Ok a) as ->.
  { apply py_index_nonneg; [unfold py_len; lia|].
    unfold py_len.
    replace (Z.to_nat (Z.of_nat (length pre) + 1 - 1)) with (length pre + 0)%nat by lia.
    by rewrite lookup_app_r, Nat.add_0_r, Nat.sub_diag by lia. }
  reflexivity.
Qed.

Lemma diff_loop (pre : list Z) (a : Z) (rest acc : list Z) :
  for_each (diff_step (pre ++ a :: rest))
           (seqZ (py_len pre + 1) (py_len rest)) acc
  = Ok (acc ++ positive_diffs (a :: rest)).
Proof.
  revert pre a acc. induction rest as [|b rest IH]; intros pre a acc.
  - simpl. by rewrite app_nil_r.
  - rewrite seqZ_step by (unfold py_len; simpl; lia). cbn [for_each].
    rewrite diff_step_at, bind_Ok.
    specialize (IH (pre ++ [a]) b).
    rewrite <- app_assoc in IH. simpl in IH.
    replace (py_len (pre ++ [a]) + 1) with (py_len pre + 1 + 1) in IH
      by (unfold py_len; rewrite length_app; simpl; lia).
    replace (py_len (b :: rest) - 1) with (py_len rest)
      by (unfold py_len; simpl; lia).
    rewrite IH, positive_diffs_cons2.
    destruct (0 <? b - a); by rewrite <- ?app_assoc.
Qed.

Lemma diff_loop_whole (ds : list Z) :
  for_each (diff_step ds) (py_range 1 (py_len ds)) [] = Ok (positive_diffs ds).
Proof.
  destruct ds as [|a rest].
  - reflexivity.
  - pose proof (diff_loop [] a rest []) as H. simpl in H.
    unfold py_range. replace (py_len (a :: rest) - 1) with (py_len rest)
      by (unfold py_len; simpl; lia).
    exact H.
Qed.

Lemma positive_diffs_short (ds : list Z) : py_len ds < 2 → positive_diffs ds = [].
Proof.
  unfold py_len. destruct ds as [|a [|b rest]]; simpl; intros; (done || lia).
Qed.

Lemma infer_step_seconds_unfold (ds : list Z) :
  infer_step_seconds ds =
  match positive_diffs ds with
  | [] => Ok SECONDS_PER_DAY
  | _ => median_of (merge_sort Z.le (positive_diffs ds))
  end.
Proof.
  unfold infer_step_seconds.
  destruct (Z.ltb_spec (py_len ds) 2) as [Hlt|Hge].
  - by rewrite positive_diffs_short.
  - rewrite diff_loop_whole. simpl. case_bool_decide as Hnil.
    + by rewrite Hnil.
    + destruct (positive_diffs ds); [done|reflexivity].
Qed.

(** ** Rounding of the even-count median *)

Lemma round53_small (s : Z) : 0 ≤ s < 2 ^ 53 → round53 s = s.
Proof.
  intros [H0 H]. unfold round53.
  destruct (Z.leb_spec (Z.log2 s + 1) 53) as [_|Hk]; [done|].
  exfalso. destruct (decide (s = 0)) as [->|Hne]; [simpl in Hk; lia|].
  assert (Z.log2 s < 53) by (apply Z.log2_lt_pow2; lia). lia.
Qed.

Lemma round53_bounds (s : Z) :
  1 ≤ s → 2 ^ Z.log2 s ≤ round53 s ≤ 2 ^ (Z.log2 s + 1).
Proof.
  intros Hs. pose proof (Z.log2_spec s ltac:(lia)) as [Hlo Hhi].
  pose proof (Z.log2_nonneg s) as Hl.
  replace (Z.succ (Z.log2 s)) with (Z.log2 s + 1) in Hhi by lia.
  unfold round53.
  destruct (Z.leb_spec (Z.log2 s + 1) 53) as [Hk|Hk]; [lia|].
  set (sh := Z.log2 s + 1 - 53). assert (1 ≤ sh) as Hsh by (unfold sh; lia).
  assert (Z.log2 s = sh + 52) as El by (unfold sh; lia).
  rewrite El in *.
  rewrite Z.shiftr_div_pow2, Z.shiftl_mul_pow2 by lia.
  assert (0 < 2 ^ sh) as Hp by (apply Z.pow_pos_nonneg; lia).
  rewrite Z.pow_add_r in Hlo by lia.
  replace (sh + 52 + 1) with (sh + 53) in * by lia.
  rewrite Z.pow_add_r in Hhi by lia. rewrite Z.pow_add_r by lia.
  rewrite (Z.pow_add_r 2 sh 53) by lia.
  assert (2 ^ 52 ≤ s `div` 2 ^ sh) by (apply Z.div_le_lower_bound; lia).
  assert (s `div` 2 ^ sh < 2 ^ 53) by (apply Z.div_lt_upper_bound; lia).
  destruct (_ || _); nia.
Qed.

Lemma int_of_truediv2_exact (s : Z) :
  0 ≤ s < 2 ^ 53 → int_of_truediv2 s = Ok (s `div` 2).
Proof.
  intros Hs. unfold int_of_truediv2.
  rewrite Z.abs_eq, round53_small by lia.
  destruct (Z.leb_spec (2 ^ 1025) s) as [Hbig|_].
  - exfalso. assert (2 ^ 53 < 2 ^ 1025) by (apply Z.pow_lt_mono_r; lia). lia.
  - f_equal. destruct (decide (s = 0)) as [->|?]; [reflexivity|].
    rewrite Z.sgn_pos by lia. lia.
Qed.

Lemma int_of_truediv2_pos (s r : Z) :
  2 ≤ s → int_of_truediv2 s = Ok r → 1 ≤ r.
Proof.
  intros Hs. unfold int_of_truediv2. rewrite Z.abs_eq by lia.
  destruct (_ <=? _); [discriminate|]. intros [= <-].
  rewrite Z.sgn_pos by lia.
  pose proof (round53_bounds s ltac:(lia)) as [Hlo _].
  assert (1 ≤ Z.log2 s) by (apply Z.log2_le_pow2; simpl; lia).
  assert (2 ^ 1 ≤ 2 ^ Z.log2 s) by (apply Z.pow_le_mono_r; lia).
  change (2 ^ 1) with 2 in *.
  assert (1 ≤ round53 s `div` 2) by (apply Z.div_le_lower_bound; lia). lia.
Qed.

Lemma int_of_truediv2_total (s : Z) :
  0 ≤ s < 2 ^ 1024 → ∃ r, int_of_truediv2 s = Ok r.
Proof.
  intros [H0 Hs]. unfold int_of_truediv2. rewrite Z.abs_eq by lia.
  destruct (Z.leb_spec (2 ^ 1025) (round53 s)) as [Hbig|_]; [|eauto].
  exfalso. destruct (decide (s = 0)) as [->|Hne].
  { rewrite round53_small in Hbig by lia.
    assert (0 < 2 ^ 1025) by (apply Z.pow_pos_nonneg; lia). lia. }
  pose proof (round53_bounds s ltac:(lia)) as [_ Hhi].
  assert (Z.log2 s < 1024) by (apply Z.log2_lt_pow2; lia).
  assert (2 ^ (Z.log2 s + 1) ≤ 2 ^ 1024) by (apply Z.pow_le_mono_r; lia).
  assert (2 ^ 1024 < 2 ^ 1025) by (apply Z.pow_lt_mono_r; lia).
  lia.
Qed.

(** ** The median step *)

Lemma median_of_odd (sorted : list Z) :
  py_len sorted `mod` 2 = 1 →
  ∃ m, sorted !! Z.to_nat (py_len sorted `div` 2) = Some m
       ∧ median_of sorted = Ok m.
Proof.
  intros Hodd. unfold median_of. rewrite Hodd. simpl.
  assert (0 ≤ py_len sorted) by (unfold py_len; lia).
  assert (0 ≤ py_len sorted `div` 2 < py_len sorted) as [Hlo Hhi]
    by divlia.
  destruct (lookup_lt_is_Some_2 sorted (Z.to_nat (py_len sorted `div` 2)))
    as [m Hm]; [unfold py_len in *; lia|].
  exists m. split; [done|]. by apply py_index_nonneg.
Qed.

Lemma median_of_even (sorted : list Z) :
  py_len sorted `mod` 2 = 0 → sorted ≠ [] →
  ∃ a b, sorted !! Z.to_nat (py_len sorted `div` 2 - 1) = Some a
         ∧ sorted !! Z.to_nat (py_len sorted `div` 2) = Some b
         ∧ median_of sorted = int_of_truediv2 (a + b).
Proof.
  intros Heven Hne. unfold median_of. rewrite Heven.
  change (0 =? 1) with false. cbv iota.
  assert (0 < py_len sorted)
    by (unfold py_len; destruct sorted; simpl; [done | lia]).
  assert (1 ≤ py_len sorted `div` 2 < py_len sorted) as [Hlo Hhi]
    by divlia.
  destruct (lookup_lt_is_Some_2 sorted (Z.to_nat (py_len sorted `div` 2 - 1)))
    as [a Ha]; [unfold py_len in *; lia|].
  destruct (lookup_lt_is_Some_2 sorted (Z.to_nat (py_len sorted `div` 2)))
    as [b Hb]; [unfold py_len in *; lia|].
  exists a, b. split_and!; [done..|].
  pose proof (py_index_nonneg sorted (py_len sorted `div` 2 - 1) a ltac:(lia) Ha) as Ea.
  pose proof (py_index_nonneg sorted (py_len sorted `div` 2) b ltac:(lia) Hb) as Eb.
  unfold py_len in *. by rewrite Ea, bind_Ok, Eb, bind_Ok.
Qed.

(** Python's [sort] returns the sorted permutation of the list; so does
    [merge_sort]. *)
Lemma sorted_is_merge_sort (l sorted : list Z) :
  Sorted Z.le sorted → sorted ≡ₚ l → merge_sort Z.le l = sorted.
Proof.
  intros Hs Hp. apply (Sorted_unique Z.le).
  - apply Sorted_merge_sort, _.
  - done.
  - by rewrite merge_sort_Permutation.
Qed.

Lemma positive_diffs_pos (ds : list Z) : Forall (λ d, 1 ≤ d) (positive_diffs ds).
Proof.
  unfold positive_diffs. apply Forall_forall. intros d Hd.
  apply list_elem_of_filter in Hd as [Hd _]. lia.
Qed.

Lemma median_of_ge_1 (sorted : list Z) (r : Z) :
  Forall (λ d, 1 ≤ d) sorted → sorted ≠ [] → median_of sorted = Ok r → 1 ≤ r.
Proof.
  intros Hall Hne. rewrite Forall_forall in Hall.
  destruct (Z.mod_pos_bound (py_len sorted) 2 ltac:(lia)) as [? ?].
  destruct (decide (py_len sorted `mod` 2 = 1)) as [Hodd|Hev].
  - destruct (median_of_odd sorted Hodd) as (m & Hm & ->). intros [= ->].
    apply Hall. by eapply list_elem_of_lookup_2.
  - destruct (median_of_even sorted ltac:(lia) Hne) as (a & b & Ha & Hb & ->).
    apply int_of_truediv2_pos.
    apply list_elem_of_lookup_2, Hall in Ha, Hb. lia.
Qed.

Lemma successive_diffs_elem (ds : list Z) (d : Z) :
  d ∈ successive_diffs ds → ∃ a b, a ∈ ds ∧ b ∈ ds ∧ d = b - a.
Proof.
  unfold successive_diffs. intros Hd.
  apply elem_of_zip_with in Hd as (a & b & -> & Ha & Hb).
  exists a, b. split_and!; [done| |done].
  destruct ds; [by apply elem_of_nil in Hb|]. by right.
Qed.

Lemma infer_step_seconds_ge_1 (ds : list Z) (r : Z) :
  infer_step_seconds ds = Ok r → 1 ≤ r.
Proof.
  rewrite infer_step_seconds_unfold.
  destruct (positive_diffs ds) as [|d l] eqn:E.
  - intros [= <-]. done.
  - rewrite <- E. apply median_of_ge_1.
    + rewrite merge_sort_Permutation. apply positive_diffs_pos.
    + intros Hnil. pose proof (merge_sort_Permutation Z.le (positive_diffs ds)) as Hp.
      rewrite Hnil, E in Hp. by apply Permutation_nil_cons in Hp.
Qed.

Lemma infer_step_seconds_total (ds : list Z) :
  Forall (λ x, Z.abs x < 2 ^ 1022) ds → ∃ r, infer_step_seconds ds = Ok r.
Proof.
  intros Hall. rewrite Forall_forall in Hall.
  rewrite infer_step_seconds_unfold.
  destruct (positive_diffs ds) as [|d l] eqn:E; [eauto|]. rewrite <- E.
  set (sorted := merge_sort Z.le (positive_diffs ds)).
  assert (sorted ≡ₚ positive_diffs ds) as Hp by apply merge_sort_Permutation.
  assert (sorted ≠ []) as Hne.
  { intros Hnil. rewrite Hnil, E in Hp. by apply Permutation_nil_cons in Hp. }
  assert (∀ x, x ∈ sorted → 1 ≤ x < 2 ^ 1023) as Hb.
  { intros x Hx. rewrite Hp in Hx. unfold positive_diffs in Hx.
    apply list_elem_of_filter in Hx as [Hpos Hx].
    apply successive_diffs_elem in Hx as (a & b & Ha & Hb & ->).
    apply Hall in Ha, Hb.
    assert (2 ^ 1023 = 2 * 2 ^ 1022) as -> by (by rewrite <- Z.pow_succ_r). lia. }
  destruct (Z.mod_pos_bound (py_len sorted) 2 ltac:(lia)) as [? ?].
  destruct (decide (py_len sorted `mod` 2 = 1)) as [Hodd|Hev].
  - destruct (median_of_odd sorted Hodd) as (m & _ & ->). eauto.
  - destruct (median_of_even sorted ltac:(lia) Hne) as (a & b & Ha & Hb' & ->).
    apply int_of_truediv2_total.
    apply list_elem_of_lookup_2, Hb in Ha, Hb'.
    assert (2 ^ 1024 = 2 * 2 ^ 1023) as -> by (by rewrite <- Z.pow_succ_r). lia.
Qed.

(** C5: the interval inferer collects the successive differences in order,
    keeps the positive ones, returns the default of 86400 seconds when none
    is left (a list of fewer than two timestamps, or [100; 100]), and returns
    the middle element of the sorted differences when their count is odd; on
    [0; 86400; 172800; 345600] it returns 86400. *)
Theorem infer_step_seconds_default_and_odd_median (ds : list Z) :
  for_each (diff_step ds) (py_range 1 (py_len ds)) [] = Ok (positive_diffs ds)
  ∧ (py_len ds < 2 → infer_step_seconds ds = Ok 86400)
  ∧ (positive_diffs ds = [] → infer_step_seconds ds = Ok 86400)
  ∧ (∀ sorted : list Z,
       Sorted Z.le sorted → sorted ≡ₚ positive_diffs ds →
       py_len sorted `mod` 2 = 1 →
       ∃ m, sorted !! Z.to_nat (py_len sorted `div` 2) = Some m
            ∧ infer_step_seconds ds = Ok m)
  ∧ positive_diffs [100; 100] = []
  ∧ infer_step_seconds [100; 100] = Ok 86400
  ∧ positive_diffs [0; 86400; 172800; 345600] = [86400; 86400; 172800]
  ∧ infer_step_seconds [0; 86400; 172800; 345600] = Ok 86400.
Proof.
  split_and!.
  - apply diff_loop_whole.
  - intros Hlen. rewrite infer_step_seconds_unfold.
    by rewrite positive_diffs_short.
  - intros Hnil. rewrite infer_step_seconds_unfold. by rewrite Hnil.
  - intros sorted Hs Hp Hodd. rewrite infer_step_seconds_unfold.
    rewrite (sorted_is_merge_sort _ sorted Hs Hp).
    destruct (positive_diffs ds) eqn:E.
    + apply Permutation_nil_r in Hp. subst sorted. discriminate.
    + by apply median_of_odd.
  - reflexivity.
  - reflexivity.
  - reflexivity.
  - vm_compute. reflexivity.
Qed.

(** C6, as stated, fails: on [0; 1; 3] the positive differences are [1; 2],
    whose arithmetic mean is 3/2, and the inferer returns 1. *)
Lemma infer_step_seconds_even_not_mean :
  positive_diffs [0; 1; 3] = [1; 2]
  ∧ infer_step_seconds [0; 1; 3] = Ok 1
  ∧ ¬ (inject_Z 1 == mean2 1 2)%Q.
Proof.
  split_and!; [reflexivity | reflexivity |].
  unfold mean2, Qeq. simpl. lia.
Qed.

Lemma Qfloor_mean2 (a b : Z) : Qfloor (mean2 a b) = (a + b) `div` 2.
Proof.
  unfold mean2, Qfloor, Qdiv, Qmult, Qplus, Qinv, inject_Z. simpl.
  rewrite !Z.mul_1_r. reflexivity.
Qed.

(** C6, amended: for an even, non-zero count of positive differences the
    inferer returns [int((a + b) / 2)] for the two central elements [a] and
    [b] of the sorted differences: their arithmetic mean rounded to a double
    and truncated to an integer, which is the floor of the mean whenever
    [a + b < 2^53]. *)
Theorem infer_step_seconds_even_median (ds sorted : list Z) :
  Sorted Z.le sorted → sorted ≡ₚ positive_diffs ds →
  sorted ≠ [] → py_len sorted `mod` 2 = 0 →
  ∃ a b,
    sorted !! Z.to_nat (py_len sorted `div` 2 - 1) = Some a
    ∧ sorted !! Z.to_nat (py_len sorted `div` 2) = Some b
    ∧ infer_step_seconds ds = int_of_truediv2 (a + b)
    ∧ (a + b < 2 ^ 53 →
       infer_step_seconds ds = Ok (Qfloor (mean2 a b))).
Proof.
  intros Hs Hp Hne Hev.
  destruct (median_of_even sorted Hev Hne) as (a & b & Ha & Hb & Hm).
  exists a, b. split_and!; [done..| |].
  - rewrite infer_step_seconds_unfold, (sorted_is_merge_sort _ sorted Hs Hp).
    destruct (positive_diffs ds) eqn:E; [|done].
    apply Permutation_nil_r in Hp. done.
  - intros Hsmall. rewrite infer_step_seconds_unfold, (sorted_is_merge_sort _ sorted Hs Hp).
    destruct (positive_diffs ds) eqn:E.
    { apply Permutation_nil_r in Hp. done. }
    rewrite Hm, Qfloor_mean2. apply int_of_truediv2_exact.
    assert (Forall (λ d, 1 ≤ d) sorted) as Hall
      by (rewrite Hp, <- E; apply positive_diffs_pos).
    rewrite Forall_forall in Hall.
    apply list_elem_of_lookup_2, Hall in Ha, Hb. lia.
Qed.

Lemma infer_step_seconds_even_median_witness :
  ∃ a b,
    [1; 2] !! Z.to_nat (py_len [1; 2] `div` 2 - 1) = Some a
    ∧ [1; 2] !! Z.to_nat (py_len [1; 2] `div` 2) = Some b
    ∧ infer_step_seconds [0; 1; 3] = int_of_truediv2 (a + b)
    ∧ (a + b < 2 ^ 53 →
       infer_step_seconds [0; 1; 3] = Ok (Qfloor (mean2 a b))).
Proof.
  apply (infer_step_seconds_even_median [0; 1; 3] [1; 2]).
  - repeat constructor; lia.
  - reflexivity.
  - discriminate.
  - reflexivity.
Defined.

(** ** Loops that append one value per iteration *)

Section append_loop.
Context {A B : Type} (f : A → result B).

Lemma appending_Ok (acc : list B) (x : A) (v : B) :
  f x = Ok v → appending f acc x = Ok (acc ++ [v]).
Proof. intros H. unfold appending. by rewrite H. Qed.

Lemma appending_Raise (acc : list B) (x : A) (e : exn) :
  f x = Raise e → appending f acc x = Raise e.
Proof. intros H. unfold appending. by rewrite H. Qed.

Lemma for_each_append_Ok (xs : list A) (vs acc : list B) :
  Forall2 (λ x v, f x = Ok v) xs vs →
  for_each (appending f) xs acc = Ok (acc ++ vs).
Proof.
  intros H. revert acc. induction H as [|x v xs vs Hx _ IH]; intros acc.
  - simpl. by rewrite app_nil_r.
  - cbn [for_each]. rewrite (appending_Ok _ _ _ Hx), bind_Ok, IH.
    by rewrite <- app_assoc.
Qed.

Lemma for_each_append_total (xs : list A) :
  Forall (λ x, ∃ v, f x = Ok v) xs →
  ∃ vs, Forall2 (λ x v, f x = Ok v) xs vs.
Proof.
  induction 1 as [|x xs [v Hv] _ [vs IH]].
  - exists []. constructor.
  - exists (v :: vs). by constructor.
Qed.

Lemma for_each_append_inv (xs : list A) (acc out : list B) :
  for_each (appending f) xs acc = Ok out →
  ∃ vs, out = acc ++ vs ∧ Forall2 (λ x v, f x = Ok v) xs vs.
Proof.
  revert acc. induction xs as [|x xs IH]; intros acc; cbn [for_each].
  - intros [= <-]. exists []. by rewrite app_nil_r.
  - destruct (f x) as [v|e] eqn:Hx.
    + rewrite (appending_Ok _ _ _ Hx), bind_Ok.
      intros H. apply IH in H as (vs & -> & Hvs).
      exists (v :: vs). rewrite <- app_assoc. split; [done|]. by constructor.
    + rewrite (appending_Raise _ _ _ Hx). discriminate.
Qed.

Lemma for_each_append_Raise (xs : list A) (acc : list B) (e : exn) :
  for_each (appending f) xs acc = Raise e → ∃ x, x ∈ xs ∧ f x = Raise e.
Proof.
  revert acc. induction xs as [|x xs IH]; intros acc; cbn [for_each];
    [discriminate|].
  destruct (f x) as [v|e'] eqn:Hx.
  - rewrite (appending_Ok _ _ _ Hx), bind_Ok.
    intros H. apply IH in H as (x' & ? & ?).
    exists x'. split; [by right | done].
  - rewrite (appending_Raise _ _ _ Hx). intros [= ->].
    exists x. split; [by left | done].
Qed.
End append_loop.

Lemma py_range_0_length (h : Z) : length (py_range 0 h) = Z.to_nat h.
Proof. unfold py_range. rewrite length_seqZ. f_equal. lia. Qed.

Lemma py_range_0_lookup (h : Z) (k : nat) :
  Z.of_nat k < h → py_range 0 h !! k = Some (Z.of_nat k).
Proof.
  intros. unfold py_range. rewrite lookup_seqZ_lt by lia. f_equal.
Qed.

Lemma py_range_0_elem (h i : Z) : i ∈ py_range 0 h → 0 ≤ i < h.
Proof. unfold py_range. rewrite elem_of_seqZ. lia. Qed.

(** ** The seasonal-repetition forecaster *)

Lemma py_slice_from_last (A : Type) (y : list A) (s : Z) :
  1 ≤ s ≤ py_len y →
  py_slice_from y (- s) = drop (length y - Z.to_nat s) y.
Proof.
  intros [H1 H2]. unfold py_slice_from, py_len in *.
  destruct (Z.ltb_spec (- s) 0) as [_|?]; [|lia].
  f_equal. lia.
Qed.

Lemma forecast_seasonal_naive_window (A : Type) (y : list A) (h s : Z) :
  y ≠ [] → Z.max 1 s ≤ py_len y →
  ∃ pre window preds,
    y = pre ++ window
    ∧ py_len window = Z.max 1 s
    ∧ forecast_seasonal_naive y h s = Ok preds
    ∧ py_len preds = Z.max 0 h
    ∧ ∀ i, 0 ≤ i < h →
        is_Some (preds !! Z.to_nat i)
        ∧ preds !! Z.to_nat i = window !! Z.to_nat (i `mod` Z.max 1 s).
Proof.
  intros Hne Hlen.
  set (s' := Z.max 1 s) in *.
  set (window := drop (length y - Z.to_nat s') y).
  assert (py_len window = s') as Hw.
  { unfold window, py_len in *. rewrite length_drop. lia. }
  assert (Forall (λ i, ∃ v, py_index window (i `mod` s') = Ok v) (py_range 0 h))
    as Hall.
  { apply Forall_forall. intros i Hi%py_range_0_elem.
    assert (0 ≤ i `mod` s' < s') as Hm by (apply Z.mod_pos_bound; lia).
    destruct (lookup_lt_is_Some_2 window (Z.to_nat (i `mod` s'))) as [v Hv];
      [unfold py_len in Hw; lia|].
    exists v. apply py_index_nonneg; [lia | done]. }
  apply for_each_append_total in Hall as [preds Hpreds].
  exists (take (length y - Z.to_nat s') y), window, preds.
  split_and!.
  - unfold window. by rewrite take_drop.
  - done.
  - unfold forecast_seasonal_naive. destruct y as [|y0 y']; [done|].
    fold s'. replace (if s <? 1 then 1 else s) with s'
      by (unfold s'; destruct (Z.ltb_spec s 1); lia).
    destruct (Z.ltb_spec (py_len (y0 :: y')) s') as [?|_]; [lia|].
    rewrite py_slice_from_last by lia. fold window.
    by apply (for_each_append_Ok _ _ preds []).
  - apply Forall2_length in Hpreds. unfold py_len. rewrite <- Hpreds.
    rewrite py_range_0_length. lia.
  - intros i Hi.
    pose proof (py_range_0_lookup h (Z.to_nat i) ltac:(lia)) as Hk.
    rewrite Z2Nat.id in Hk by lia.
    destruct (Forall2_lookup_l _ _ _ _ _ Hpreds Hk) as (v & Hv & Hidx).
    rewrite Hv. split; [eauto|].
    unfold py_index in Hidx.
    assert (0 ≤ i `mod` s' < s') as Hm by (apply Z.mod_pos_bound; lia).
    destruct (Z.ltb_spec (i `mod` s') 0) as [?|_]; [lia|].
    destruct (Z.ltb_spec (i `mod` s') 0) as [?|_]; [lia|].
    destruct (window !! _); by inversion Hidx.
Qed.

(** C3: with at least a full season of history the forecaster returns
    [horizon] predictions, the [i]-th being [window[i mod s]] for the window
    of the final [s] values of [y] in their order, [s] the clamped season
    length; on [1; 2; 3; 4] with horizon 4 and season length 2 it returns
    [3; 4; 3; 4]. *)
Theorem forecast_seasonal_naive_cycles (A : Type) (y : list A) (h s : Z) :
  y ≠ [] → Z.max 1 s ≤ py_len y → 1 ≤ h →
  (∃ pre window preds,
     y = pre ++ window
     ∧ py_len window = Z.max 1 s
     ∧ forecast_seasonal_naive y h s = Ok preds
     ∧ py_len preds = h
     ∧ ∀ i, 0 ≤ i < h →
         is_Some (preds !! Z.to_nat i)
         ∧ preds !! Z.to_nat i = window !! Z.to_nat (i `mod` Z.max 1 s))
  ∧ forecast_seasonal_naive [1; 2; 3; 4]%float 4 2 = Ok [3; 4; 3; 4]%float.
Proof.
  intros Hne Hlen Hh. split; [|reflexivity].
  destruct (forecast_seasonal_naive_window A y h s Hne Hlen)
    as (pre & window & preds & ? & ? & ? & Hl & ?).
  exists pre, window, preds. split_and!; try done. lia.
Qed.

Lemma forecast_seasonal_naive_cycles_witness :
  (∃ pre window preds,
     [10; 20; 30] = pre ++ window
     ∧ py_len window = Z.max 1 2
     ∧ forecast_seasonal_naive [10; 20; 30] 5 2 = Ok preds
     ∧ py_len preds = 5
     ∧ ∀ i, 0 ≤ i < 5 →
         is_Some (preds !! Z.to_nat i)
         ∧ preds !! Z.to_nat i = window !! Z.to_nat (i `mod` Z.max 1 2))
  ∧ forecast_seasonal_naive [1; 2; 3; 4]%float 4 2 = Ok [3; 4; 3; 4]%float.
Proof.
  apply (forecast_seasonal_naive_cycles Z [10; 20; 30] 5 2).
  - discriminate.
  - vm_compute. discriminate.
  - lia.
Defined.

(** C8: with a history shorter than the clamped season length the forecaster
    returns [horizon] copies of the last observed value; the season length is
    read from the configuration with default 7; on [5.0] with horizon 3 and
    season length 7 it returns [5.0; 5.0; 5.0]. *)
Theorem forecast_seasonal_naive_short_history (A : Type) (y : list A) (h s : Z) :
  y ≠ [] → py_len y < Z.max 1 s → 1 ≤ h →
  (∃ v, last y = Some v
        ∧ forecast_seasonal_naive y h s = Ok (replicate (Z.to_nat h) v))
  ∧ (∀ cfg : option (gmap string pyvalue),
       default ∅ cfg !! "seasonLength"%string = None →
       season_length_of cfg = Ok 7)
  ∧ forecast_seasonal_naive [5]%float 3 7 = Ok [5; 5; 5]%float.
Proof.
  intros Hne Hlen Hh. split_and!.
  - destruct (last y) as [v|] eqn:Hlast.
    2:{ apply last_None in Hlast. done. }
    exists v. split; [done|].
    unfold forecast_seasonal_naive. destruct y as [|y0 y']; [done|].
    replace (if s <? 1 then 1 else s) with (Z.max 1 s)
      by (destruct (Z.ltb_spec s 1); lia).
    destruct (Z.ltb_spec (py_len (y0 :: y')) (Z.max 1 s)) as [_|?]; [|lia].
    rewrite (py_index_last _ v Hlast), bind_Ok. f_equal.
    rewrite <- py_range_0_length. by apply const_fmap.
  - intros cfg Hcfg. unfold season_length_of. by rewrite Hcfg.
  - reflexivity.
Qed.

Lemma forecast_seasonal_naive_short_history_witness :
  (∃ v, last [10; 20] = Some v
        ∧ forecast_seasonal_naive [10; 20] 4 7 = Ok (replicate (Z.to_nat 4) v))
  ∧ (∀ cfg : option (gmap string pyvalue),
       default ∅ cfg !! "seasonLength"%string = None →
       season_length_of cfg = Ok 7)
  ∧ forecast_seasonal_naive [5]%float 3 7 = Ok [5; 5; 5]%float.
Proof.
  apply (forecast_seasonal_naive_short_history Z [10; 20] 4 7).
  - discriminate.
  - vm_compute. reflexivity.
  - lia.
Defined.

(** ** Pure append loops *)

Lemma foldl_append_map {A B : Type} (g : A → B) (xs : list A) (acc : list B) :
  foldl (λ preds j, preds ++ [g j]) acc xs = acc ++ (g <$> xs).
Proof.
  revert acc. induction xs as [|x xs IH]; intros acc; simpl.
  - by rewrite app_nil_r.
  - by rewrite IH, <- app_assoc.
Qed.

(** ** Binary64 arithmetic

    The facts about the rounding of [SpecFloat] that the linear-trend
    forecaster needs: a rounded positive number is positive when its
    exponent is not below the least one, and it is finite when its exponent
    stays below the greatest one. *)

Lemma digits2_pos_size (p : positive) : digits2_pos p = Pos.size p.
Proof. induction p; simpl; by rewrite ?IHp. Qed.

Lemma Zdigits2_log2 (m : Z) : 0 < m → Zdigits2 m = Z.log2 m + 1.
Proof.
  destruct m as [|p|p]; try lia. intros _. simpl. rewrite digits2_pos_size.
  destruct p; simpl; lia.
Qed.

Lemma Zdigits2_bounds (m : Z) :
  0 < m → 2 ^ (Zdigits2 m - 1) ≤ m < 2 ^ Zdigits2 m.
Proof.
  intros Hm. rewrite Zdigits2_log2 by done.
  pose proof (Z.log2_spec m Hm). replace (Z.log2 m + 1 - 1) with (Z.log2 m) by lia.
  by replace (Z.log2 m + 1) with (Z.succ (Z.log2 m)) by lia.
Qed.

Lemma Zdigits2_pos (m : Z) : 0 < m → 1 ≤ Zdigits2 m.
Proof. intros. rewrite Zdigits2_log2 by done. pose proof (Z.log2_nonneg m). lia. Qed.

Lemma Zdigits2_mono (a b : Z) : 0 < a ≤ b → Zdigits2 a ≤ Zdigits2 b.
Proof.
  intros. rewrite !Zdigits2_log2 by lia.
  pose proof (Z.log2_le_mono a b). lia.
Qed.

Lemma Zdigits2_succ (m : Z) : 0 < m → Zdigits2 (m + 1) ≤ Zdigits2 m + 1.
Proof.
  intros. rewrite !Zdigits2_log2 by lia.
  pose proof (Z.log2_succ_le m). unfold Z.succ in *. lia.
Qed.

Lemma Zdigits2_lt_pow2 (m k : Z) : 0 < m < 2 ^ k → 0 ≤ k → Zdigits2 m ≤ k.
Proof.
  intros [H0 H] Hk. rewrite Zdigits2_log2 by done.
  assert (Z.log2 m < k) by (by apply Z.log2_lt_pow2). lia.
Qed.

Lemma shr_1_m (r : shr_record) : 0 ≤ shr_m r → shr_m (shr_1 r) = shr_m r `div` 2.
Proof.
  destruct r as [m r s]. simpl. intros Hm.
  rewrite <- Z.div2_div. destruct m as [|[p|p|]|p]; simpl; (done || lia).
Qed.

Lemma pow2_xO (p : positive) : 2 ^ Z.pos p~0 = 2 ^ Z.pos p * 2 ^ Z.pos p.
Proof.
  replace (Z.pos p~0) with (Z.pos p + Z.pos p) by lia.
  by rewrite Z.pow_add_r by lia.
Qed.

Lemma pow2_xI (p : positive) : 2 ^ Z.pos p~1 = 2 * (2 ^ Z.pos p * 2 ^ Z.pos p).
Proof.
  replace (Z.pos p~1) with (1 + (Z.pos p + Z.pos p)) by lia.
  by rewrite !Z.pow_add_r by lia.
Qed.

Lemma iter_shr_m (p : positive) (r : shr_record) :
  0 ≤ shr_m r →
  shr_m (SpecFloat.iter_pos shr_1 p r) = shr_m r `div` 2 ^ Z.pos p.
Proof.
  revert r. induction p as [p IH|p IH|]; intros r Hr; cbn [SpecFloat.iter_pos].
  - assert (0 < 2 ^ Z.pos p) by (apply Z.pow_pos_nonneg; lia).
    assert (0 ≤ shr_m (shr_1 r)) as H1
      by (rewrite shr_1_m by done; apply Z.div_pos; lia).
    assert (0 ≤ shr_m (SpecFloat.iter_pos shr_1 p (shr_1 r))) as H2
      by (rewrite IH by done; apply Z.div_pos; lia).
    rewrite (IH _ H2), (IH _ H1), shr_1_m by done.
    rewrite !Z.div_div by lia. by rewrite pow2_xI.
  - assert (0 < 2 ^ Z.pos p) by (apply Z.pow_pos_nonneg; lia).
    assert (0 ≤ shr_m (SpecFloat.iter_pos shr_1 p r)) as H2
      by (rewrite IH by done; apply Z.div_pos; lia).
    rewrite (IH _ H2), (IH _ Hr).
    rewrite !Z.div_div by lia. by rewrite pow2_xO.
  - rewrite shr_1_m by done. reflexivity.
Qed.

Lemma shr_record_of_loc_m (m : Z) (l : location) : shr_m (shr_record_of_loc m l) = m.
Proof. by destruct l as [|[| |]]. Qed.

Lemma emin_64 : emin = -1074.
Proof. reflexivity. Qed.

Lemma fexp_64 (e : Z) : fexp prec emax e = Z.max (e - 53) (-1074).
Proof. reflexivity. Qed.

(** One shift to the format: the mantissa does not grow and stays
    non-negative; above the least exponent a positive mantissa stays
    positive and the exponent is the greater of [e] and [digits + e - 53]. *)
Lemma shr_fexp_nonneg (m e : Z) (l : location) :
  0 ≤ m → 0 ≤ shr_m (shr_fexp prec emax m e l).1 ≤ m.
Proof.
  intros Hm. unfold shr_fexp, shr.
  destruct (fexp prec emax (Zdigits2 m + e) - e) as [|p|p];
    simpl; rewrite ?iter_shr_m, ?shr_record_of_loc_m;
    rewrite ?shr_record_of_loc_m; try lia.
  assert (0 < 2 ^ Z.pos p) by (apply Z.pow_pos_nonneg; lia).
  split; [apply Z.div_pos; lia|].
  apply Z.div_le_upper_bound; nia.
Qed.

Lemma shr_fexp_pos (m e : Z) (l : location) :
  0 < m → -1074 ≤ e →
  0 < shr_m (shr_fexp prec emax m e l).1
  ∧ (shr_fexp prec emax m e l).2 = Z.max e (Zdigits2 m + e - 53).
Proof.
  intros Hm He. unfold shr_fexp, shr. rewrite fexp_64.
  pose proof (Zdigits2_bounds m Hm) as [Hlo _].
  pose proof (Zdigits2_pos m Hm) as Hd.
  destruct (Z.max (Zdigits2 m + e - 53) (-1074) - e) as [|p|p] eqn:E;
    simpl; rewrite ?iter_shr_m, ?shr_record_of_loc_m;
    rewrite ?shr_record_of_loc_m; try lia.
  assert (Z.pos p = Zdigits2 m - 53) as Hp by lia.
  split; [|lia].
  assert (2 ^ Z.pos p ≤ 2 ^ (Zdigits2 m - 1)) by (apply Z.pow_le_mono_r; lia).
  assert (0 < 2 ^ Z.pos p) by (apply Z.pow_pos_nonneg; lia).
  assert (1 ≤ m `div` 2 ^ Z.pos p) by (apply Z.div_le_lower_bound; lia).
  lia.
Qed.

Lemma round_nearest_even_bounds (m : Z) (l : location) :
  m ≤ round_nearest_even m l ≤ m + 1.
Proof. destruct l as [|[| |]]; simpl; try lia. destruct (Z.even m); lia. Qed.

(** Rounding a positive mantissa keeps the sign and never yields a NaN. *)
Lemma binary_round_aux_signed (s : bool) (m e : Z) (l : location) :
  0 < m → sf_signed s (binary_round_aux prec emax s m e l).
Proof.
  intros Hm. unfold binary_round_aux.
  pose proof (shr_fexp_nonneg m e l ltac:(lia)) as H1.
  destruct (shr_fexp prec emax m e l) as [mrs' e'].
  pose proof (round_nearest_even_bounds (shr_m mrs') (loc_of_shr_record mrs')) as H2.
  pose proof (shr_fexp_nonneg (round_nearest_even (shr_m mrs') (loc_of_shr_record mrs'))
                e' loc_Exact ltac:(simpl in *; lia)) as H3.
  destruct (shr_fexp prec emax _ e' loc_Exact) as [mrs'' e''].
  simpl in *. destruct (shr_m mrs''); [done| |lia].
  by destruct (e'' <=? emax - prec).
Qed.

(** Above the least exponent the rounded value is not zero either, its
    exponent is at least [e], and it is finite as long as the bound [B] on
    its exponent fits the format. *)
Lemma binary_round_aux_pos (s : bool) (m e : Z) (l : location) :
  0 < m → -1074 ≤ e →
  let B := Z.max e (Zdigits2 m + e - 53) + Z.max 0 (Zdigits2 m + 1 - 53) in
  (∃ m' e', binary_round_aux prec emax s m e l = S754_finite s m' e'
            ∧ e ≤ e' ≤ B ∧ e' ≤ 971)
  ∨ (binary_round_aux prec emax s m e l = S754_infinity s ∧ 971 < B).
Proof.
  intros Hm He B. unfold binary_round_aux.
  pose proof (shr_fexp_pos m e l Hm He) as [H1 H1e].
  pose proof (shr_fexp_nonneg m e l ltac:(lia)) as [_ H1m].
  destruct (shr_fexp prec emax m e l) as [mrs' e']. simpl in H1, H1e, H1m.
  pose proof (round_nearest_even_bounds (shr_m mrs') (loc_of_shr_record mrs')) as H2.
  set (m1 := round_nearest_even (shr_m mrs') (loc_of_shr_record mrs')) in *.
  pose proof (shr_fexp_pos m1 e' loc_Exact ltac:(lia) ltac:(lia)) as [H3 H3e].
  assert (Zdigits2 m1 ≤ Zdigits2 m + 1) as Hd.
  { etrans; [apply (Zdigits2_mono m1 (m + 1)); lia | by apply Zdigits2_succ]. }
  destruct (shr_fexp prec emax m1 e' loc_Exact) as [mrs'' e'']. simpl in H3, H3e.
  destruct (shr_m mrs'') as [|m''|]; try lia.
  change (emax - prec) with 971.
  destruct (Z.leb_spec e'' 971).
  - left. exists m'', e''. split; [done|]. unfold B. lia.
  - right. split; [done|]. unfold B. lia.
Qed.

Lemma binary_round_aux_positive (m e : Z) (l : location) :
  0 < m → -1074 ≤ e → sf_positive (binary_round_aux prec emax false m e l).
Proof.
  intros Hm He.
  destruct (binary_round_aux_pos false m e l Hm He) as [(m' & e' & -> & _)|[-> _]];
    done.
Qed.

(** Validity: the exponent of a float is at least the least one, and its
    mantissa has at most 53 bits, exactly 53 above the least exponent. *)
Lemma valid_finite_bounds (s : bool) (m : positive) (e : Z) :
  valid_binary (S754_finite s m e) = true →
  -1074 ≤ e ≤ 971 ∧ Zdigits2 (Z.pos m) ≤ 53
  ∧ (-1074 < e → Zdigits2 (Z.pos m) = 53).
Proof.
  unfold SpecFloat.valid_binary, bounded, canonical_mantissa.
  intros H. apply andb_prop in H as [H1 H2].
  apply Z.eqb_eq in H1. apply Z.leb_le in H2.
  rewrite fexp_64 in H1. change (emax - prec) with 971 in H2.
  change (Z.pos (digits2_pos m)) with (Zdigits2 (Z.pos m)) in H1. lia.
Qed.

(** ** Alignment and normalisation *)

Lemma pos_iter_xO (m d : positive) : Z.pos (Pos.iter xO m d) = Z.pos m * 2 ^ Z.pos d.
Proof.
  induction d as [|d IH] using Pos.peano_ind.
  - simpl. lia.
  - rewrite Pos.iter_succ, Pos2Z.inj_xO, IH, Pos2Z.inj_succ, Z.pow_succ_r by lia.
    lia.
Qed.

Lemma shl_align_spec (m : positive) (e e' : Z) :
  (shl_align m e e').2 = Z.min e e'
  ∧ Z.pos (shl_align m e e').1 = Z.pos m * 2 ^ (e - Z.min e e').
Proof.
  unfold shl_align. destruct (e' - e) as [|d|d] eqn:E; simpl.
  - split; [lia|]. replace (e - Z.min e e') with 0 by lia. lia.
  - split; [lia|]. replace (e - Z.min e e') with 0 by lia. lia.
  - split; [lia|]. rewrite pos_iter_xO. f_equal. f_equal. lia.
Qed.

Lemma binary_round_signed (s : bool) (m : positive) (e : Z) :
  sf_signed s (binary_round prec emax s m e).
Proof.
  unfold binary_round. destruct (shl_align _ _ _) as [mz ez].
  by apply binary_round_aux_signed.
Qed.

Lemma binary_round_positive (m : positive) (e : Z) :
  -1074 ≤ e → sf_positive (binary_round prec emax false m e).
Proof.
  intros He. unfold binary_round.
  pose proof (shl_align_spec m e (fexp prec emax (Z.pos (digits2_pos m) + e)))
    as [H2 _].
  rewrite fexp_64 in *.
  destruct (shl_align _ _ _) as [mz ez]. simpl in H2.
  apply binary_round_aux_positive; lia.
Qed.

Lemma binary_normalize_number (m e : Z) (sz : bool) :
  sf_number (binary_normalize prec emax m e sz).
Proof.
  destruct m as [|p|p]; simpl; [done| |].
  - pose proof (binary_round_signed false p e). by destruct (binary_round _ _ _ _ _).
  - pose proof (binary_round_signed true p e). by destruct (binary_round _ _ _ _ _).
Qed.

Lemma binary_normalize_positive (m e : Z) (sz : bool) :
  0 < m → -1074 ≤ e → sf_positive (binary_normalize prec emax m e sz).
Proof.
  intros Hm He. destruct m as [|p|p]; try lia. simpl.
  by apply binary_round_positive.
Qed.

(** ** The operations of the forecaster on classes of values *)

Lemma SF64add_positive (a b : spec_float) :
  sf_positive a → valid_binary a = true →
  sf_signed false b → valid_binary b = true →
  sf_positive (SF64add a b).
Proof.
  intros Ha Va Hb Vb.
  destruct a as [| [|] | | [|] ma ea]; try done;
    destruct b as [ [|] | [|] | | [|] mb eb]; try done.
  apply valid_finite_bounds in Va as [? _], Vb as [? _].
  unfold SF64add, SFadd. apply binary_normalize_positive; [simpl; lia | lia].
Qed.

Lemma SF64mul_square_signed (x : spec_float) :
  sf_number x → sf_signed false (SF64mul x x).
Proof.
  destruct x as [s|s| |s m e]; try done; intros _; simpl.
  - by destruct s.
  - by destruct s.
  - replace (xorb s s) with false by (by destruct s).
    by apply binary_round_aux_signed.
Qed.

Lemma SF64mul_square_positive (s : bool) (m : positive) (e : Z) :
  -1074 ≤ e + e → sf_positive (SF64mul (S754_finite s m e) (S754_finite s m e)).
Proof.
  intros He. simpl. replace (xorb s s) with false by (by destruct s).
  by apply binary_round_aux_positive.
Qed.

Lemma SF64sub_number (a : spec_float) (s : bool) (m : positive) (e : Z) :
  sf_number a → sf_number (SF64sub a (S754_finite s m e)).
Proof.
  destruct a as [sa|sa| |sa ma ea]; try done; intros _.
  unfold SF64sub, SFsub. apply binary_normalize_number.
Qed.

Lemma SFltb_zero_positive (x : spec_float) :
  sf_positive x → SFltb (S754_zero false) x = true.
Proof. by destruct x as [| [|] | | [|] m e]. Qed.

Lemma sf_positive_signed (x : spec_float) : sf_positive x → sf_signed false x.
Proof. by destruct x as [| [|] | | [|] m e]. Qed.

(** ** Conversion of positions *)

Lemma of_int_spec (i : Z) :
  0 ≤ i < 2 ^ 63 → Prim2SF (of_int i) = binary_normalize prec emax i 0 false.
Proof.
  intros Hi. unfold of_int. rewrite of_uint63_spec, Uint63.of_Z_spec.
  change Uint63Axioms.wB with (2 ^ 63). by rewrite Z.mod_small.
Qed.

Lemma of_int_number (i : Z) : sf_number (Prim2SF (of_int i)).
Proof. unfold of_int. rewrite of_uint63_spec. apply binary_normalize_number. Qed.

Lemma of_int_0 : Prim2SF (of_int 0) = S754_zero false.
Proof. reflexivity. Qed.

Lemma Zdigits2_mul_pow2 (m k : Z) :
  0 < m → 0 ≤ k → Zdigits2 (m * 2 ^ k) = Zdigits2 m + k.
Proof.
  intros Hm Hk.
  assert (0 < 2 ^ k) by (apply Z.pow_pos_nonneg; lia).
  rewrite !Zdigits2_log2 by nia. rewrite Z.log2_mul_pow2 by lia. lia.
Qed.

Lemma of_int_finite_pos (i : Z) :
  1 ≤ i < 2 ^ 63 → sf_finite_pos (-52) 21 (Prim2SF (of_int i)).
Proof.
  intros Hi. rewrite of_int_spec by lia.
  destruct i as [|p|p]; try lia. cbn [binary_normalize]. unfold binary_round.
  change (Z.pos (digits2_pos p)) with (Zdigits2 (Z.pos p)).
  pose proof (Zdigits2_pos (Z.pos p) ltac:(lia)) as Hd1.
  pose proof (Zdigits2_lt_pow2 (Z.pos p) 63 ltac:(lia) ltac:(lia)) as Hd2.
  pose proof (shl_align_spec p 0 (fexp prec emax (Zdigits2 (Z.pos p) + 0)))
    as [Hez Hmz].
  rewrite fexp_64 in *.
  destruct (shl_align _ _ _) as [mz ez]. simpl in Hez, Hmz.
  assert (Zdigits2 (Z.pos mz) = Zdigits2 (Z.pos p) + (0 - ez)) as Hdz
    by (rewrite Hmz, Hez; apply Zdigits2_mul_pow2; lia).
  pose proof (binary_round_aux_pos false (Z.pos mz) ez loc_Exact
                ltac:(lia) ltac:(lia)) as HR.
  cbv zeta in HR.
  change (Z.pos (digits2_pos p)) with (Zdigits2 (Z.pos p)) in *.
  destruct HR as [(m' & e' & -> & He' & _)|[_ HB]]; [simpl; lia | exfalso; lia].
Qed.

Lemma Prim2SF_2 : Prim2SF 2 = S754_finite false 4503599627370496 (-51).
Proof. reflexivity. Qed.

(** Halving a converted positive position: finite and positive again. *)
Lemma half_finite_pos (x : float) :
  sf_finite_pos (-52) 21 (Prim2SF x) → sf_finite_pos (-54) 22 (Prim2SF (x / 2)).
Proof.
  intros Hx. rewrite div_spec, Prim2SF_2.
  pose proof (Prim2SF_valid x) as Hv.
  destruct (Prim2SF x) as [| | |[|] m1 e1]; try done. simpl in Hx.
  apply valid_finite_bounds in Hv as (_ & _ & Hd). specialize (Hd ltac:(lia)).
  unfold SF64div, SFdiv, SFdiv_core_binary. cbv zeta.
  rewrite Hd. change (Zdigits2 4503599627370496) with 53.
  replace (Z.min (fexp prec emax (53 + e1 - (53 + -51))) (e1 - -51)) with (e1 - 2)
    by (rewrite fexp_64; lia).
  replace (e1 - -51 - (e1 - 2)) with 53 by lia.
  rewrite Z.shiftl_mul_pow2 by lia.
  destruct (Z.div_eucl _ _) as [q r] eqn:E.
  assert (q = Z.pos m1 * 2) as ->.
  { assert (q = (Z.pos m1 * 2 ^ 53) `div` 4503599627370496) as ->
      by (unfold Z.div; by rewrite E).
    change (2 ^ 53) with (2 * 4503599627370496).
    rewrite Z.mul_assoc. by rewrite Z.div_mul. }
  assert (Zdigits2 (Z.pos m1 * 2) = 54) as Hd2.
  { change 2 with (2 ^ 1) at 1. rewrite Zdigits2_mul_pow2 by lia. lia. }
  cbn [xorb].
  pose proof (binary_round_aux_pos false (Z.pos m1 * 2) (e1 - 2)
                (new_location 4503599627370496 r) ltac:(lia) ltac:(lia)) as HR.
  cbv zeta in HR.
  destruct HR as [(m' & e' & -> & He' & _)|[_ HB]]; [simpl; lia | exfalso; lia].
Qed.

(** ** The accumulation loop *)

Lemma trend_fold_split (xm ym : float) (items : list (Z * float)) (v c : float) :
  foldl (trend_step xm ym) (v, c) items =
  (foldl (λ acc item, let dx := (of_int item.1 - xm)%float in
                      (acc + dx * dx)%float) v items,
   foldl (λ acc item, let dx := (of_int item.1 - xm)%float in
                      (acc + dx * (item.2 - ym))%float) c items).
Proof.
  revert v c. induction items as [|[i val] items IH]; intros v c; [done|].
  simpl. by rewrite IH.
Qed.

Lemma sq_fold_indices (xm : float) (y : list float) (start : Z) (v : float) :
  foldl (λ acc (item : Z * float),
           let dx := (of_int item.1 - xm)%float in (acc + dx * dx)%float)
        v (py_enumerate start y)
  = foldl (λ acc i, let dx := (of_int i - xm)%float in (acc + dx * dx)%float)
          v (seqZ start (py_len y)).
Proof.
  revert start v. induction y as [|y0 y IH]; intros start v; [done|].
  rewrite seqZ_step by (unfold py_len; simpl; lia). simpl.
  replace (py_len (y0 :: y) - 1) with (py_len y) by (unfold py_len; simpl; lia).
  apply IH.
Qed.

Lemma sq_step_positive (xm acc : float) (i : Z) :
  sf_finite_pos (-54) 22 (Prim2SF xm) → sf_positive (Prim2SF acc) →
  sf_positive (Prim2SF (acc + (of_int i - xm) * (of_int i - xm))).
Proof.
  intros Hxm Hacc.
  assert (sf_number (Prim2SF (of_int i - xm))) as Hdx.
  { rewrite sub_spec. destruct (Prim2SF xm) as [| | |[|] m e]; try done.
    apply SF64sub_number, of_int_number. }
  rewrite add_spec. apply SF64add_positive; [done | apply Prim2SF_valid | |
    apply Prim2SF_valid].
  rewrite mul_spec. by apply SF64mul_square_signed.
Qed.

Lemma sq_first_positive (xm : float) :
  sf_finite_pos (-54) 22 (Prim2SF xm) →
  sf_positive (Prim2SF (0 + (of_int 0 - xm) * (of_int 0 - xm))).
Proof.
  intros Hxm. rewrite add_spec, mul_spec, sub_spec, of_int_0.
  destruct (Prim2SF xm) as [| | |[|] m e]; try done. simpl in Hxm.
  change (SF64sub (S754_zero false) (S754_finite false m e))
    with (S754_finite true m e).
  pose proof (SF64mul_square_positive true m e ltac:(lia)) as Hsq.
  change (Prim2SF 0) with (S754_zero false).
  by destruct (SF64mul _ _) as [| [|] | | [|] m' e'].
Qed.

Lemma sq_fold_positive (xm : float) (idx : list Z) (acc : float) :
  sf_finite_pos (-54) 22 (Prim2SF xm) → sf_positive (Prim2SF acc) →
  sf_positive (Prim2SF
    (foldl (λ acc i, let dx := (of_int i - xm)%float in (acc + dx * dx)%float)
           acc idx)).
Proof.
  intros Hxm. revert acc. induction idx as [|i idx IH]; intros acc Hacc; [done|].
  simpl. apply IH. by apply sq_step_positive.
Qed.

Lemma index_mean_finite_pos (n : Z) :
  2 ≤ n ≤ 2 ^ 63 → sf_finite_pos (-54) 22 (Prim2SF (index_mean n)).
Proof.
  intros Hn. unfold index_mean. apply half_finite_pos, of_int_finite_pos. lia.
Qed.

Lemma sum_sq_dev_positive (n : Z) :
  2 ≤ n ≤ 2 ^ 63 → sf_positive (Prim2SF (sum_sq_dev n)).
Proof.
  intros Hn. unfold sum_sq_dev, py_range.
  rewrite seqZ_step by lia. cbn [foldl]. cbv zeta.
  apply sq_fold_positive; [by apply index_mean_finite_pos|].
  by apply sq_first_positive, index_mean_finite_pos.
Qed.

Lemma positive_ltb (x : float) : sf_positive (Prim2SF x) → (0 <? x)%float = true.
Proof. intros H. rewrite FloatAxioms.ltb_spec. by apply SFltb_zero_positive. Qed.

Lemma positive_neq_0 (x : float) : sf_positive (Prim2SF x) → (x =? 0)%float = false.
Proof.
  intros H. rewrite FloatAxioms.eqb_spec. change (Prim2SF 0) with (S754_zero false).
  by destruct (Prim2SF x) as [| [|] | | [|] m e].
Qed.

(** The loop of the forecaster computes the two sums of the line. *)
Lemma trend_fold_sums (y : list float) :
  foldl (trend_step (index_mean (py_len y)) (value_mean y)) (0%float, 0%float)
        (py_enumerate 0 y)
  = (sum_sq_dev (py_len y), sum_co_dev y).
Proof.
  rewrite trend_fold_split, sq_fold_indices.
  unfold sum_sq_dev, sum_co_dev, py_range. by rewrite Z.sub_0_r.
Qed.

Lemma forecast_linear_trend_unfold (y : list float) (h : Z) :
  2 ≤ py_len y →
  forecast_linear_trend y h =
  let '(var, cov) :=
    foldl (trend_step (index_mean (py_len y)) (value_mean y))
          (0%float, 0%float) (py_enumerate 0 y) in
  let slope := if (0 <? var)%float then (cov / var)%float else 0%float in
  let intercept := (value_mean y - slope * index_mean (py_len y))%float in
  Ok ((λ j, (intercept + slope * of_int (py_len y + j))%float) <$> py_range 0 h).
Proof.
  intros Hn. unfold forecast_linear_trend.
  destruct y as [|y0 y']; [unfold py_len in Hn; simpl in Hn; lia|].
  destruct (Z.eqb_spec (py_len (y0 :: y')) 1) as [E|_]; [lia|].
  fold (index_mean (py_len (y0 :: y'))). fold (value_mean (y0 :: y')).
  destruct (foldl _ _ _) as [var cov]. cbv zeta.
  by rewrite foldl_append_map.
Qed.

(** C9: the loop of the linear-trend forecaster accumulates in [var] the sum
    of the squared deviations of the indices [0 .. n - 1] from their mean;
    for a history of length [n] at least 2 (and below [2^63], the bound of
    CPython on the length of a list) that sum is strictly positive in
    binary64 arithmetic, so the guard [var > 0] holds, the divisor is not
    zero, and the slope is [cov / var], never the fallback [0]. *)
Theorem linear_trend_variance_positive (y : list float) :
  2 ≤ py_len y < 2 ^ 63 →
  foldl (trend_step (index_mean (py_len y)) (value_mean y)) (0%float, 0%float)
        (py_enumerate 0 y)
  = (sum_sq_dev (py_len y), sum_co_dev y)
  ∧ (0 <? sum_sq_dev (py_len y))%float = true
  ∧ (sum_sq_dev (py_len y) =? 0)%float = false
  ∧ (if (0 <? sum_sq_dev (py_len y))%float
     then (sum_co_dev y / sum_sq_dev (py_len y))%float else 0%float)
    = ols_slope y.
Proof.
  intros Hn.
  pose proof (sum_sq_dev_positive (py_len y) ltac:(lia)) as Hpos.
  split_and!.
  - apply trend_fold_sums.
  - by apply positive_ltb.
  - by apply positive_neq_0.
  - by rewrite positive_ltb.
Qed.

Lemma linear_trend_variance_positive_witness :
  foldl (trend_step (index_mean (py_len [1; 2; 3]%float))
                    (value_mean [1; 2; 3]%float)) (0%float, 0%float)
        (py_enumerate 0 [1; 2; 3]%float)
  = (sum_sq_dev (py_len [1; 2; 3]%float), sum_co_dev [1; 2; 3]%float)
  ∧ (0 <? sum_sq_dev (py_len [1; 2; 3]%float))%float = true
  ∧ (sum_sq_dev (py_len [1; 2; 3]%float) =? 0)%float = false
  ∧ (if (0 <? sum_sq_dev (py_len [1; 2; 3]%float))%float
     then (sum_co_dev [1; 2; 3]%float / sum_sq_dev (py_len [1; 2; 3]%float))%float
     else 0%float)
    = ols_slope [1; 2; 3]%float.
Proof.
  apply (linear_trend_variance_positive [1; 2; 3]%float).
  vm_compute. split; [discriminate | reflexivity].
Defined.

(** C4: on a history of at least 2 points the linear-trend forecaster
    returns [horizon] predictions, the one of position [n + j] being
    [intercept + slope * (n + j)] for the least-squares line of the values
    against the indices [0 .. n - 1]: slope the ratio of the covariance sum to
    the variance sum, intercept the mean value minus slope times the mean
    index; on [1.0; 2.0; 3.0] with horizon 2 the line has slope 1 and
    intercept 1 and the predictions are [4.0; 5.0].  Positions stay below
    [2^63], the bound of CPython on list lengths. *)
Theorem forecast_linear_trend_ols (y : list float) (h : Z) :
  2 ≤ py_len y → 1 ≤ h → py_len y + h ≤ 2 ^ 63 →
  (∃ preds,
     forecast_linear_trend y h = Ok preds
     ∧ py_len preds = h
     ∧ ∀ j, 0 ≤ j < h →
         preds !! Z.to_nat j
         = Some (ols_intercept y + ols_slope y * of_int (py_len y + j))%float)
  ∧ ols_slope [1; 2; 3]%float = 1%float
  ∧ ols_intercept [1; 2; 3]%float = 1%float
  ∧ forecast_linear_trend [1; 2; 3]%float 2 = Ok [4; 5]%float.
Proof.
  intros Hn Hh Hbound. split_and!; try reflexivity.
  rewrite forecast_linear_trend_unfold by done.
  rewrite trend_fold_sums. cbv zeta.
  rewrite (positive_ltb _ (sum_sq_dev_positive (py_len y) ltac:(lia))).
  fold (ols_slope y). fold (ols_intercept y).
  eexists. split_and!; [reflexivity| |].
  - unfold py_len. rewrite length_fmap, py_range_0_length. lia.
  - intros j Hj. rewrite list_lookup_fmap.
    rewrite (py_range_0_lookup h (Z.to_nat j)) by lia. simpl.
    by rewrite Z2Nat.id by lia.
Qed.

Lemma forecast_linear_trend_ols_witness :
  (∃ preds,
     forecast_linear_trend [2; 4; 9; 1]%float 3 = Ok preds
     ∧ py_len preds = 3
     ∧ ∀ j, 0 ≤ j < 3 →
         preds !! Z.to_nat j
         = Some (ols_intercept [2; 4; 9; 1]%float
                 + ols_slope [2; 4; 9; 1]%float
                   * of_int (py_len [2; 4; 9; 1]%float + j))%float)
  ∧ ols_slope [1; 2; 3]%float = 1%float
  ∧ ols_intercept [1; 2; 3]%float = 1%float
  ∧ forecast_linear_trend [1; 2; 3]%float 2 = Ok [4; 5]%float.
Proof.
  apply (forecast_linear_trend_ols [2; 4; 9; 1]%float 3).
  - vm_compute. discriminate.
  - lia.
  - vm_compute. discriminate.
Defined.

(** ** The calendar *)

(** The Gregorian calendar repeats every 400 years, that is every 146097
    days: the conversion of an ordinal is checked on one cycle by
    evaluation, and carried over to the other cycles by arithmetic. *)

Lemma all_in_block_spec (f : Z → bool) (k : nat) (lo r : Z) :
  all_in_block f k lo = true → lo ≤ r < lo + 2 ^ Z.of_nat k → f r = true.
Proof.
  revert lo. induction k as [|k IH]; intros lo H Hr.
  - simpl in *. by replace r with lo by lia.
  - cbn [all_in_block] in H. apply andb_prop in H as [H1 H2].
    rewrite Nat2Z.inj_succ, Z.pow_succ_r in Hr by lia.
    destruct (Z.lt_ge_cases r (lo + 2 ^ Z.of_nat k)).
    + apply (IH lo); [done | lia].
    + apply (IH (lo + 2 ^ Z.of_nat k)); [done | lia].
Qed.

Lemma cycle_ok_block :
  all_in_block (λ r, (146097 <=? r) || cycle_ok r) 18 0 = true.
Proof. vm_cast_no_check (@eq_refl bool true). Qed.

Lemma cycle_ok_at (r : Z) : 0 ≤ r < 146097 → cycle_ok r = true.
Proof.
  intros Hr.
  pose proof (all_in_block_spec _ 18 0 r cycle_ok_block) as H.
  change (2 ^ Z.of_nat 18) with 262144 in H. specialize (H ltac:(lia)).
  simpl in H. destruct (Z.leb_spec 146097 r); [lia | done].
Qed.

Lemma is_leap_shift (y q : Z) : is_leap (y + 400 * q) = is_leap y.
Proof.
  unfold is_leap.
  replace ((y + 400 * q) `mod` 4) with (y `mod` 4)
    by (replace (400 * q) with (100 * q * 4) by lia; by rewrite Z_mod_plus_full).
  replace ((y + 400 * q) `mod` 100) with (y `mod` 100)
    by (replace (400 * q) with (4 * q * 100) by lia; by rewrite Z_mod_plus_full).
  replace ((y + 400 * q) `mod` 400) with (y `mod` 400)
    by (replace (400 * q) with (q * 400) by lia; by rewrite Z_mod_plus_full).
  reflexivity.
Qed.

Lemma days_before_year_shift (y q : Z) :
  days_before_year (y + 400 * q) = days_before_year y + 146097 * q.
Proof.
  unfold days_before_year. cbv zeta.
  replace (y + 400 * q - 1) with (y - 1 + 400 * q) by lia.
  replace ((y - 1 + 400 * q) `div` 4) with ((y - 1) `div` 4 + 100 * q)
    by (replace (400 * q) with (100 * q * 4) by lia; by rewrite Z.div_add).
  replace ((y - 1 + 400 * q) `div` 100) with ((y - 1) `div` 100 + 4 * q)
    by (replace (400 * q) with (4 * q * 100) by lia; by rewrite Z.div_add).
  replace ((y - 1 + 400 * q) `div` 400) with ((y - 1) `div` 400 + q)
    by (replace (400 * q) with (q * 400) by lia; by rewrite Z.div_add).
  lia.
Qed.

Lemma ymd2ord_shift (y m d q : Z) :
  ymd2ord (y + 400 * q) m d = ymd2ord y m d + 146097 * q.
Proof.
  unfold ymd2ord. rewrite is_leap_shift, days_before_year_shift. lia.
Qed.

Lemma ord2ymd_shift (q r : Z) :
  0 ≤ r < 146097 →
  ord2ymd (q * 146097 + r + 1) =
  let '(y, m, d) := ord2ymd (r + 1) in (y + 400 * q, m, d).
Proof.
  intros Hr. unfold ord2ymd. cbv zeta.
  replace (q * 146097 + r + 1 - 1) with (r + q * 146097) by lia.
  replace (r + 1 - 1) with r by lia.
  rewrite Z.div_add, Z_mod_plus_full by lia.
  rewrite (Z.div_small r 146097), (Z.mod_small r 146097) by lia.
  repeat match goal with |- context [if ?b then _ else _] => destruct b end;
    f_equal; try f_equal; lia.
Qed.

Lemma days_before_month_nonneg (m : Z) : 0 ≤ days_before_month m.
Proof.
  unfold days_before_month.
  destruct (Z.to_nat m) as [|[|[|[|[|[|[|[|[|[|[|[|[|[|k]]]]]]]]]]]]]];
    simpl; lia.
Qed.

Lemma ord2ymd_correct (n : Z) :
  1 ≤ n ≤ 3652059 →
  ∃ y m d, ord2ymd n = (y, m, d)
    ∧ 1 ≤ y ≤ 9999 ∧ 1 ≤ m ≤ 12 ∧ 1 ≤ d ≤ days_in_month (is_leap y) m
    ∧ ymd2ord y m d = n.
Proof.
  intros Hn.
  set (q := (n - 1) `div` 146097). set (r := (n - 1) `mod` 146097).
  assert (n = q * 146097 + r + 1) as Hnqr by (unfold q, r; divlia).
  assert (0 ≤ r < 146097) as Hr by (unfold r; divlia).
  assert (0 ≤ q ≤ 24) as Hq by (unfold q; divlia).
  clearbody q r. subst n.
  rewrite ord2ymd_shift by done.
  pose proof (cycle_ok_at r Hr) as Hc. unfold cycle_ok in Hc.
  destruct (ord2ymd (r + 1)) as [[y m] d].
  repeat (apply andb_prop in Hc as [Hc ?]).
  exists (y + 400 * q), m, d. rewrite is_leap_shift, ymd2ord_shift.
  assert (ymd2ord y m d = r + 1) as Hord by lia.
  split_and!; try done; try lia.
  (* the year 9999 is the last one *)
  destruct (decide (q = 24)) as [->|]; [|lia].
  destruct (decide (y = 400)) as [->|]; [|lia].
  exfalso. unfold ymd2ord in Hord.
  change (days_before_year 400) with 145731 in Hord.
  pose proof (days_before_month_nonneg m).
  destruct ((2 <? m) && is_leap 400); lia.
Qed.

(** ** Rendering *)

Lemma digit_char_cases (x : Z) :
  ∃ k, 0 ≤ k ≤ 9 ∧ x `mod` 10 = k ∧ digit_char x = ascii_of_nat (48 + Z.to_nat k).
Proof.
  exists (x `mod` 10). repeat split; try reflexivity; divlia.
Qed.

Lemma digit_char_val (x : Z) : digit_val (digit_char x) = Some (x `mod` 10).
Proof.
  destruct (digit_char_cases x) as (k & Hk & -> & ->).
  assert (k = 0 ∨ k = 1 ∨ k = 2 ∨ k = 3 ∨ k = 4 ∨ k = 5 ∨ k = 6 ∨ k = 7
          ∨ k = 8 ∨ k = 9) as Hc by lia.
  repeat destruct Hc as [->|Hc]; try subst k; reflexivity.
Qed.

Lemma digit_char_not_plus (x : Z) : digit_char x ≠ "+"%char.
Proof.
  destruct (digit_char_cases x) as (k & Hk & _ & ->).
  assert (k = 0 ∨ k = 1 ∨ k = 2 ∨ k = 3 ∨ k = 4 ∨ k = 5 ∨ k = 6 ∨ k = 7
          ∨ k = 8 ∨ k = 9) as Hc by lia.
  repeat destruct Hc as [->|Hc]; try subst k; discriminate.
Qed.

Lemma fmt_digits_2 (n : Z) :
  fmt_digits 2 n = String (digit_char (n `div` 10)) (String (digit_char n) "").
Proof. cbn [fmt_digits]. change (10 ^ Z.of_nat 1) with 10.
  change (10 ^ Z.of_nat 0) with 1. by rewrite Z.div_1_r. Qed.

Lemma fmt_digits_4 (n : Z) :
  fmt_digits 4 n =
  String (digit_char (n `div` 1000)) (String (digit_char (n `div` 100))
    (String (digit_char (n `div` 10)) (String (digit_char n) ""))).
Proof. cbn [fmt_digits]. change (10 ^ Z.of_nat 3) with 1000.
  change (10 ^ Z.of_nat 2) with 100. change (10 ^ Z.of_nat 1) with 10.
  change (10 ^ Z.of_nat 0) with 1. by rewrite Z.div_1_r. Qed.

Lemma digits_val_2 (n : Z) :
  0 ≤ n < 100 → digits_val [digit_char (n `div` 10); digit_char n] 0 = Some n.
Proof.
  intros Hn. cbn [digits_val].
  repeat (rewrite digit_char_val; cbn [mbind option_bind]).
  f_equal. divlia.
Qed.

Lemma digits_val_4 (n : Z) :
  0 ≤ n < 10000 →
  digits_val [digit_char (n `div` 1000); digit_char (n `div` 100);
              digit_char (n `div` 10); digit_char n] 0 = Some n.
Proof.
  intros Hn. cbn [digits_val].
  repeat (rewrite digit_char_val; cbn [mbind option_bind]).
  f_equal. divlia.
Qed.

(** A text without [+] is copied by the replacement of [+00:00]. *)
Lemma str_replace_go_app (p rest : string) :
  Forall (λ c, c ≠ "+"%char) (list_ascii_of_string p) →
  str_replace_go "+00:00" "Z" 0 (p +:+ rest) =
  p +:+ str_replace_go "+00:00" "Z" 0 rest.
Proof.
  induction p as [|c p IH]; intros H; [reflexivity|].
  cbn [list_ascii_of_string] in H. apply Forall_cons in H as [Hc H].
  change (String c p +:+ rest) with (String c (p +:+ rest)).
  cbn [str_replace_go String.prefix].
  destruct (ascii_dec "+" c) as [<-|_]; [done|].
  by rewrite IH.
Qed.

Lemma fmt_digits_no_plus (w : nat) (n : Z) :
  Forall (λ c, c ≠ "+"%char) (list_ascii_of_string (fmt_digits w n)).
Proof.
  induction w as [|w IH]; cbn [fmt_digits list_ascii_of_string]; constructor;
    [apply digit_char_not_plus | done].
Qed.

Lemma time_of_day (rem : Z) :
  0 ≤ rem < 86400 →
  0 ≤ rem `div` 3600 < 24 ∧ 0 ≤ (rem `mod` 3600) `div` 60 < 60
  ∧ 0 ≤ rem `mod` 60 < 60
  ∧ rem `div` 3600 * 3600 + (rem `mod` 3600) `div` 60 * 60 + rem `mod` 60 = rem.
Proof. intros. divlia. Qed.

Lemma iso_from_seconds_in_range (sec : Z) :
  MIN_TIMESTAMP ≤ sec ≤ MAX_TIMESTAMP →
  ∃ s, iso_from_seconds sec = Ok s ∧ parse_iso_utc s = Some sec.
Proof.
  unfold MIN_TIMESTAMP, MAX_TIMESTAMP. intros Hsec.
  unfold iso_from_seconds, fromtimestamp_utc, MIN_TIMESTAMP, MAX_TIMESTAMP.
  destruct (Z.ltb_spec sec (-62135596800)) as [?|_]; [lia|].
  destruct (Z.ltb_spec 253402300799 sec) as [?|_]; [lia|].
  cbn [orb].
  set (days := sec `div` 86400). set (rem := sec `mod` 86400).
  assert (sec = days * 86400 + rem) as Hsplit by (unfold days, rem; divlia).
  assert (0 ≤ rem < 86400) as Hrem by (unfold rem; divlia).
  assert (1 ≤ days + 719163 ≤ 3652059) as Hord by (unfold days; divlia).
  destruct (ord2ymd_correct _ Hord) as (y & m & d & -> & Hy & Hm & Hd & Hback).
  destruct (time_of_day rem Hrem) as (Hh & Hmi & Hs & Hsum).
  rewrite bind_Ok. eexists. split; [reflexivity|].
  unfold isoformat, replace_microsecond. cbn [year month day hour minute second microsecond].
  change (0 =? 0) with true. cbv iota.
  unfold str_replace.
  assert (days_in_month (is_leap y) m ≤ 31) as Hdim
    by (unfold days_in_month; repeat case_match; lia).
  repeat (rewrite str_replace_go_app
            by (apply fmt_digits_no_plus || (repeat constructor; discriminate))).
  change (str_replace_go "+00:00" "Z" 0 "+00:00") with "Z"%string.
  rewrite fmt_digits_4, !fmt_digits_2.
  unfold parse_iso_utc.
  cbv [String.append list_ascii_of_string].
  change (Ascii.eqb "-" "-") with true. change (Ascii.eqb "T" "T") with true.
  change (Ascii.eqb ":" ":") with true. change (Ascii.eqb "Z" "Z") with true.
  cbn [andb].
  rewrite digits_val_4 by lia. cbn [mbind option_bind].
  rewrite !digits_val_2 by lia. cbn [mbind option_bind].
  destruct (Z.leb_spec 1 y); [|lia]. destruct (Z.leb_spec 1 m); [|lia].
  destruct (Z.leb_spec m 12); [|lia]. destruct (Z.leb_spec 1 d); [|lia].
  destruct (Z.leb_spec d (days_in_month (is_leap y) m)); [|lia].
  destruct (Z.ltb_spec (rem `div` 3600) 24); [|lia].
  destruct (Z.ltb_spec ((rem `mod` 3600) `div` 60) 60); [|lia].
  destruct (Z.ltb_spec (rem `mod` 60) 60); [|lia].
  cbn [andb]. f_equal. lia.
Qed.

Lemma iso_from_seconds_out_of_range (sec : Z) :
  sec < MIN_TIMESTAMP ∨ MAX_TIMESTAMP < sec →
  iso_from_seconds sec = Raise ValueError.
Proof.
  intros H. unfold iso_from_seconds, fromtimestamp_utc.
  destruct (Z.ltb_spec sec MIN_TIMESTAMP); [reflexivity|].
  destruct (Z.ltb_spec MAX_TIMESTAMP sec); [reflexivity|]. lia.
Qed.

Lemma iso_from_seconds_Ok_inv (sec : Z) (s : string) :
  iso_from_seconds sec = Ok s →
  MIN_TIMESTAMP ≤ sec ≤ MAX_TIMESTAMP ∧ parse_iso_utc s = Some sec.
Proof.
  intros H.
  destruct (decide (MIN_TIMESTAMP ≤ sec ≤ MAX_TIMESTAMP)) as [Hr|Hr].
  - split; [done|]. destruct (iso_from_seconds_in_range sec Hr) as (s' & Hs' & ?).
    congruence.
  - rewrite iso_from_seconds_out_of_range in H by lia. discriminate.
Qed.

Lemma iso_from_seconds_Raise_inv (sec : Z) (e : exn) :
  iso_from_seconds sec = Raise e → e = ValueError.
Proof.
  intros H.
  destruct (decide (MIN_TIMESTAMP ≤ sec ≤ MAX_TIMESTAMP)) as [Hr|Hr].
  - destruct (iso_from_seconds_in_range sec Hr) as (s' & Hs' & ?). congruence.
  - rewrite iso_from_seconds_out_of_range in H by lia. congruence.
Qed.

(** ** Enumeration *)

Lemma py_enumerate_length {A : Type} (start : Z) (l : list A) :
  length (py_enumerate start l) = length l.
Proof. revert start. induction l; intros; simpl; [done | by rewrite IHl]. Qed.

Lemma py_enumerate_lookup {A : Type} (start : Z) (l : list A) (k : nat) :
  py_enumerate start l !! k = (λ x, (start + Z.of_nat k, x)) <$> l !! k.
Proof.
  revert start k. induction l as [|x l IH]; intros start [|k]; simpl; try done.
  - by rewrite Z.add_0_r.
  - rewrite IH. destruct (l !! k); simpl; [|done]. do 2 f_equal. lia.
Qed.

(** ** The forecasters always answer on a non-empty history *)

Lemma forecast_seasonal_naive_total (A : Type) (y : list A) (h s : Z) :
  y ≠ [] →
  ∃ preds, forecast_seasonal_naive y h s = Ok preds ∧ py_len preds = Z.max 0 h.
Proof.
  intros Hne. destruct (Z.le_gt_cases (Z.max 1 s) (py_len y)) as [Hlen|Hlen].
  - destruct (forecast_seasonal_naive_window A y h s Hne Hlen)
      as (_ & _ & preds & _ & _ & ? & ? & _). eauto.
  - destruct (last y) as [v|] eqn:Hlast.
    2:{ by apply last_None in Hlast. }
    exists (replicate (Z.to_nat h) v). split.
    + unfold forecast_seasonal_naive. destruct y as [|y0 y']; [done|].
      replace (if s <? 1 then 1 else s) with (Z.max 1 s)
        by (destruct (Z.ltb_spec s 1); lia).
      destruct (Z.ltb_spec (py_len (y0 :: y')) (Z.max 1 s)) as [_|?]; [|lia].
      rewrite (py_index_last _ v Hlast), bind_Ok. f_equal.
      rewrite <- py_range_0_length. by apply const_fmap.
    + unfold py_len. rewrite length_replicate. lia.
Qed.

Lemma forecast_linear_trend_total (y : list float) (h : Z) :
  y ≠ [] →
  ∃ preds, forecast_linear_trend y h = Ok preds ∧ py_len preds = Z.max 0 h.
Proof.
  intros Hne. unfold forecast_linear_trend.
  destruct y as [|y0 y']; [done|].
  destruct (py_len (y0 :: y') =? 1).
  - rewrite (py_index_nonneg _ 0 y0) by done. rewrite bind_Ok.
    eexists. split; [reflexivity|].
    unfold py_len. rewrite length_fmap, py_range_0_length. lia.
  - destruct (foldl _ _ _) as [var cov].
    eexists. split; [reflexivity|].
    rewrite foldl_append_map. simpl.
    unfold py_len. rewrite length_fmap, py_range_0_length. lia.
Qed.

(** ** Which exceptions can reach the handler *)

Lemma py_int_not_http (v : pyvalue) (e : exn) : py_int v = Raise e → ¬ is_http e.
Proof.
  destruct v; simpl; try (intros [= <-]; simpl; tauto); try discriminate.
  - unfold int_of_float. destruct (Prim2SF f); try discriminate;
      intros [= <-]; simpl; tauto.
  - unfold int_of_str. destruct (strip _) as [|c rest].
    + simpl. intros [= <-]. simpl; tauto.
    + repeat case_match; try discriminate; intros [= <-]; simpl; tauto.
Qed.

Lemma infer_step_seconds_Raise (ds : list Z) (e : exn) :
  infer_step_seconds ds = Raise e → e = OverflowError.
Proof.
  rewrite infer_step_seconds_unfold.
  destruct (positive_diffs ds) as [|d l] eqn:E; [discriminate|]. rewrite <- E.
  set (sorted := merge_sort Z.le (positive_diffs ds)).
  assert (sorted ≠ []) as Hne.
  { intros Hnil. pose proof (merge_sort_Permutation Z.le (positive_diffs ds)) as Hp.
    fold sorted in Hp. rewrite Hnil, E in Hp. by apply Permutation_nil_cons in Hp. }
  destruct (Z.mod_pos_bound (py_len sorted) 2 ltac:(lia)) as [? ?].
  destruct (decide (py_len sorted `mod` 2 = 1)) as [Hodd|Hev].
  - destruct (median_of_odd sorted Hodd) as (m & _ & ->). discriminate.
  - destruct (median_of_even sorted ltac:(lia) Hne) as (a & b & _ & _ & ->).
    unfold int_of_truediv2. case_match; [|discriminate]. by intros [= <-].
Qed.

(** ** The dispatch *)

Lemma dispatch_ETS (req : ForecastRequest) :
  model req = "ETS"%string →
  dispatch req = (season_length ← season_length_of (config req);
                  forecast_seasonal_naive (y req) (horizon req) season_length).
Proof. intros H. unfold dispatch. by rewrite H. Qed.

Lemma dispatch_PROPHET (req : ForecastRequest) :
  model req = "PROPHET"%string →
  dispatch req = forecast_linear_trend (y req) (horizon req).
Proof. intros H. unfold dispatch. by rewrite H. Qed.

Lemma dispatch_unrecognized (req : ForecastRequest) :
  ¬ recognized (model req) →
  dispatch req = Raise (HTTPException 400 ("Unsupported model: " +:+ model req)).
Proof.
  intros H. unfold dispatch, recognized in *.
  destruct (String.eqb_spec (model req) "ETS"); [tauto|].
  destruct (String.eqb_spec (model req) "PROPHET"); [tauto|]. done.
Qed.

Lemma recognized_dec (m : string) : recognized m ∨ ¬ recognized m.
Proof.
  unfold recognized.
  destruct (String.eqb_spec m "ETS"); [tauto|].
  destruct (String.eqb_spec m "PROPHET"); tauto.
Qed.

Lemma dispatch_total (req : ForecastRequest) :
  recognized (model req) → y req ≠ [] →
  (model req = "ETS"%string → ∃ s, season_length_of (config req) = Ok s) →
  ∃ preds, dispatch req = Ok preds ∧ py_len preds = Z.max 0 (horizon req).
Proof.
  intros [Hm|Hm] Hy Hs.
  - rewrite dispatch_ETS by done. destruct (Hs Hm) as [s ->]. rewrite bind_Ok.
    by apply forecast_seasonal_naive_total.
  - rewrite dispatch_PROPHET by done. by apply forecast_linear_trend_total.
Qed.

Lemma dispatch_Ok_inv (req : ForecastRequest) (preds : list float) :
  dispatch req = Ok preds → y req ≠ [] →
  recognized (model req) ∧ py_len preds = Z.max 0 (horizon req).
Proof.
  intros H Hy. destruct (recognized_dec (model req)) as [Hr|Hr].
  2:{ rewrite dispatch_unrecognized in H by done. discriminate. }
  split; [done|]. destruct Hr as [Hm|Hm].
  - rewrite dispatch_ETS in H by done.
    apply bind_Ok_inv in H as (s & _ & H).
    destruct (forecast_seasonal_naive_total _ (y req) (horizon req) s Hy)
      as (preds' & H' & ?). congruence.
  - rewrite dispatch_PROPHET in H by done.
    destruct (forecast_linear_trend_total (y req) (horizon req) Hy)
      as (preds' & H' & ?). congruence.
Qed.

Lemma dispatch_Raise_http (req : ForecastRequest) (e : exn) :
  dispatch req = Raise e → y req ≠ [] → is_http e → ¬ recognized (model req).
Proof.
  intros H Hy He [Hm|Hm].
  - rewrite dispatch_ETS in H by done.
    destruct (season_length_of (config req)) as [s|e'] eqn:Hs.
    + rewrite bind_Ok in H.
      destruct (forecast_seasonal_naive_total _ (y req) (horizon req) s Hy)
        as (preds' & H' & ?). congruence.
    + simpl in H. injection H as <-. by eapply py_int_not_http.
  - rewrite dispatch_PROPHET in H by done.
    destruct (forecast_linear_trend_total (y req) (horizon req) Hy)
      as (preds' & H' & ?). congruence.
Qed.

(** ** The loop that builds the points *)

Lemma make_point_Ok (last_ds step i : Z) (yh : float) (p : ForecastPoint) :
  make_point last_ds step (i, yh) = Ok p ↔
  iso_from_seconds (last_ds + step * i) = Ok (t p)
  ∧ yhat p = yh ∧ yhatLower p = None ∧ yhatUpper p = None ∧ isFuture p = true.
Proof.
  unfold make_point. split.
  - intros H. apply bind_Ok_inv in H as (ts & Hts & [= <-]). by simpl.
  - intros (Hts & Hy & Hl & Hu & Hf). rewrite Hts, bind_Ok.
    destruct p; simpl in *. by subst.
Qed.

Lemma points_loop_Ok_inv (last_ds step : Z) (preds : list float)
    (pts : list ForecastPoint) :
  for_each (appending (make_point last_ds step)) (py_enumerate 1 preds) [] = Ok pts →
  length pts = length preds
  ∧ ∀ (k : nat) (p : ForecastPoint), pts !! k = Some p →
      iso_from_seconds (last_ds + step * (1 + Z.of_nat k)) = Ok (t p)
      ∧ preds !! k = Some (yhat p)
      ∧ yhatLower p = None ∧ yhatUpper p = None ∧ isFuture p = true.
Proof.
  intros H. apply for_each_append_inv in H as (vs & -> & HF). simpl.
  split.
  - apply Forall2_length in HF. by rewrite py_enumerate_length in HF.
  - intros k p Hp.
    destruct (Forall2_lookup_r _ _ _ _ _ HF Hp) as ([i yh] & Hi & Hmk).
    rewrite py_enumerate_lookup in Hi.
    destruct (preds !! k) as [yh'|] eqn:Hk; [|discriminate].
    simpl in Hi. injection Hi as <- <-.
    apply make_point_Ok in Hmk as (? & <- & ? & ? & ?). done.
Qed.

Lemma points_loop_total (last_ds step : Z) (preds : list float) :
  (∀ k, 1 ≤ k ≤ py_len preds →
        MIN_TIMESTAMP ≤ last_ds + step * k ≤ MAX_TIMESTAMP) →
  ∃ pts,
    for_each (appending (make_point last_ds step)) (py_enumerate 1 preds) [] = Ok pts.
Proof.
  intros Hin.
  assert (Forall (λ item, ∃ p, make_point last_ds step item = Ok p)
                 (py_enumerate 1 preds)) as HF.
  { apply Forall_lookup. intros k [i yh] Hk.
    rewrite py_enumerate_lookup in Hk.
    destruct (preds !! k) as [yh'|] eqn:Hp; [|discriminate].
    simpl in Hk. injection Hk as <- <-.
    apply lookup_lt_Some in Hp.
    destruct (iso_from_seconds_in_range (last_ds + step * (1 + Z.of_nat k)))
      as (ts & Hts & _); [apply Hin; unfold py_len; lia|].
    eexists {| t := ts; yhat := yh' |}. apply make_point_Ok. by simpl. }
  apply for_each_append_total in HF as [pts HF].
  exists pts. by apply (for_each_append_Ok _ _ pts []).
Qed.

Lemma points_loop_Raise (last_ds step : Z) (preds : list float) (e : exn) :
  for_each (appending (make_point last_ds step)) (py_enumerate 1 preds) [] = Raise e →
  e = ValueError.
Proof.
  intros H. apply for_each_append_Raise in H as ([i yh] & _ & H).
  unfold make_point in H.
  destruct (iso_from_seconds _) as [ts|e'] eqn:Hts; [discriminate|].
  simpl in H. injection H as <-. by eapply iso_from_seconds_Raise_inv.
Qed.

(** ** The handler *)

Lemma forecast_mismatch (req : ForecastRequest) :
  py_len (ds req) ≠ py_len (y req) →
  forecast req = Raise (HTTPException 400 "Training data length mismatch.").
Proof.
  intros H. unfold forecast.
  by destruct (Z.eqb_spec (py_len (ds req)) (py_len (y req))).
Qed.

Lemma forecast_too_short (req : ForecastRequest) :
  py_len (ds req) = py_len (y req) → py_len (ds req) < 2 →
  forecast req = Raise (HTTPException 400 "At least 2 observations are required.").
Proof.
  intros H1 H2. unfold forecast.
  destruct (Z.eqb_spec (py_len (ds req)) (py_len (y req))); [|done]. simpl.
  by destruct (Z.ltb_spec (py_len (ds req)) 2); [|lia].
Qed.

Lemma forecast_unfold (req : ForecastRequest) :
  py_len (ds req) = py_len (y req) → 2 ≤ py_len (ds req) →
  forecast req =
  (step ← infer_step_seconds (ds req);
   last_ds ← py_index (ds req) (-1);
   preds ← dispatch req;
   points ← for_each (appending (make_point last_ds step))
                     (py_enumerate 1 preds) [];
   Ok {| points := points;
         meta := {| meta_horizon := horizon req;
                    historyCount := py_len (ds req);
                    intervalLevel := None;
                    metrics := {| sampleCount := 0; mae := None;
                                  rmse := None; mape := None |} |} |}).
Proof.
  intros H1 H2. unfold forecast.
  destruct (Z.eqb_spec (py_len (ds req)) (py_len (y req))); [|done]. simpl.
  by destruct (Z.ltb_spec (py_len (ds req)) 2); [lia|].
Qed.

Lemma last_is_Some_len {A : Type} (l : list A) :
  1 ≤ py_len l → ∃ x, last l = Some x.
Proof.
  unfold py_len. intros H. destruct (last l) eqn:E; [eauto|].
  apply last_None in E. subst. simpl in H. lia.
Qed.

Lemma nonempty_len {A : Type} (l : list A) : 1 ≤ py_len l → l ≠ [].
Proof. unfold py_len. intros H ->. simpl in H. lia. Qed.

(** What a response tells about the request that produced it. *)
Lemma forecast_Ok_inv (req : ForecastRequest) (resp : ForecastResponse) :
  forecast req = Ok resp →
  py_len (ds req) = py_len (y req) ∧ 2 ≤ py_len (ds req)
  ∧ recognized (model req)
  ∧ py_len (points resp) = Z.max 0 (horizon req)
  ∧ ∃ step last_ds,
      infer_step_seconds (ds req) = Ok step ∧ last (ds req) = Some last_ds
      ∧ ∀ (k : nat) (p : ForecastPoint), points resp !! k = Some p →
          iso_from_seconds (last_ds + step * (1 + Z.of_nat k)) = Ok (t p)
          ∧ yhatLower p = None ∧ yhatUpper p = None ∧ isFuture p = true.
Proof.
  intros H.
  destruct (decide (py_len (ds req) = py_len (y req))) as [Hlen|Hlen].
  2:{ rewrite forecast_mismatch in H by done. discriminate. }
  destruct (Z.lt_ge_cases (py_len (ds req)) 2) as [Hsh|Hge].
  { rewrite forecast_too_short in H by done. discriminate. }
  rewrite forecast_unfold in H by (done || lia).
  apply bind_Ok_inv in H as (step & Hstep & H).
  destruct (last_is_Some_len (ds req) ltac:(lia)) as [last_ds Hlast].
  rewrite (py_index_last _ _ Hlast), bind_Ok in H.
  apply bind_Ok_inv in H as (preds & Hpreds & H).
  apply bind_Ok_inv in H as (pts & Hpts & [= <-]). simpl.
  apply dispatch_Ok_inv in Hpreds as [Hrec Hplen];
    [|apply nonempty_len; lia].
  apply points_loop_Ok_inv in Hpts as [Hl Hpts].
  split_and!; [done | lia | done | unfold py_len in *; lia |].
  exists step, last_ds. split_and!; [done..|].
  intros k p Hp. destruct (Hpts k p Hp) as (? & _ & ? & ? & ?). done.
Qed.

(** C1, as stated, fails: a request with equal-length series of two
    observations, horizon 1 and a recognized model whose projected instant
    lies after the year 9999 gets no response at all. *)
Lemma forecast_valid_request_raises :
  let req := {| model := "ETS"; ds := [0; 300000000000]; y := [1; 2]%float;
                horizon := 1; config := None |} in
  py_len (ds req) = py_len (y req) ∧ 2 ≤ py_len (ds req) ∧ 1 ≤ horizon req
  ∧ recognized (model req)
  ∧ infer_step_seconds (ds req) = Ok 300000000000
  ∧ iso_from_seconds (300000000000 + 300000000000 * 1) = Raise ValueError
  ∧ forecast req = Raise ValueError.
Proof.
  cbv zeta. split_and!.
  - reflexivity.
  - by vm_compute.
  - by vm_compute.
  - left. reflexivity.
  - vm_compute. reflexivity.
  - vm_compute. reflexivity.
  - vm_compute. reflexivity.
Qed.

(** C1, amended: a request with equal-length series of at least two
    observations, horizon at least 1 and a recognized model gets a response
    of exactly [horizon] points whenever none of its three conversions
    raises: the timestamps are below [2^1022] in magnitude (the step is
    inferred), the [seasonLength] option converts to an integer, and every
    projected instant lies in the years 1 to 9999.  Every response has
    exactly [horizon] points, and a validation error yields no response. *)
Theorem forecast_complete_or_error (req : ForecastRequest) :
  (py_len (ds req) = py_len (y req) → 2 ≤ py_len (ds req) →
   1 ≤ horizon req → recognized (model req) →
   Forall (λ x, Z.abs x < 2 ^ 1022) (ds req) →
   (model req = "ETS"%string → ∃ s, season_length_of (config req) = Ok s) →
   (∀ step last_ds k,
      infer_step_seconds (ds req) = Ok step → last (ds req) = Some last_ds →
      1 ≤ k ≤ horizon req →
      MIN_TIMESTAMP ≤ last_ds + step * k ≤ MAX_TIMESTAMP) →
   ∃ resp, forecast req = Ok resp ∧ py_len (points resp) = horizon req)
  ∧ (∀ resp, forecast req = Ok resp → 1 ≤ horizon req →
       py_len (points resp) = horizon req)
  ∧ (py_len (ds req) ≠ py_len (y req) ∨ py_len (ds req) < 2 →
       fails_400 (forecast req) ∧ response_points (forecast req) = [])
  ∧ (¬ recognized (model req) → response_points (forecast req) = []).
Proof.
  split_and!.
  - intros Hlen H2 Hh Hrec Hbound Hseason Hrange.
    rewrite forecast_unfold by done.
    destruct (infer_step_seconds_total (ds req) Hbound) as [step Hstep].
    destruct (last_is_Some_len (ds req) ltac:(lia)) as [last_ds Hlast].
    destruct (dispatch_total req Hrec ltac:(apply nonempty_len; lia) Hseason)
      as (preds & Hpreds & Hplen).
    destruct (points_loop_total last_ds step preds) as [pts Hpts].
    { intros k Hk. apply (Hrange step last_ds k); (done || lia). }
    rewrite Hstep, bind_Ok, (py_index_last _ _ Hlast), bind_Ok.
    rewrite Hpreds, bind_Ok, Hpts, bind_Ok.
    eexists. split; [reflexivity|]. simpl.
    apply points_loop_Ok_inv in Hpts as [Hl _]. unfold py_len in *. lia.
  - intros resp H Hh. apply forecast_Ok_inv in H as (_ & _ & _ & Hl & _). lia.
  - intros [Hne|Hlt].
    + rewrite forecast_mismatch by done. split; [by eexists | done].
    + destruct (decide (py_len (ds req) = py_len (y req))) as [Heq|Hne].
      * rewrite forecast_too_short by done. split; [by eexists | done].
      * rewrite forecast_mismatch by done. split; [by eexists | done].
  - intros Hrec. destruct (forecast req) as [resp|e] eqn:H; [|done].
    apply forecast_Ok_inv in H as (_ & _ & ? & _). done.
Qed.

(** C2, as stated, fails: with an unrecognized selector and timestamps whose
    two central differences sum to [2^1026], the step inference raises
    [OverflowError] before the dispatch is reached, and the failure is not a
    400 one. *)
Lemma forecast_unrecognized_not_400 :
  let req := {| model := "FOO"; ds := [0; 2 ^ 1025; 2 ^ 1026];
                y := [1; 2; 3]%float; horizon := 1; config := None |} in
  py_len (ds req) = py_len (y req) ∧ 2 ≤ py_len (ds req)
  ∧ ¬ recognized (model req)
  ∧ forecast req = Raise OverflowError
  ∧ ¬ fails_400 (forecast req).
Proof.
  cbv zeta.
  assert (forecast {| model := "FOO"; ds := [0; 2 ^ 1025; 2 ^ 1026];
                      y := [1; 2; 3]%float; horizon := 1; config := None |}
          = Raise OverflowError) as H by (vm_compute; reflexivity).
  split_and!.
  - reflexivity.
  - by vm_compute.
  - unfold recognized. simpl. intros [Hm|Hm]; discriminate.
  - exact H.
  - rewrite H. intros [detail Hd]. discriminate.
Qed.

(** C2, amended: the handler fails with status 400 exactly when the two
    series differ in length, or fewer than 2 observations are supplied, or
    the selector is unrecognized and the step inference returned.  In each of
    the three cases of the claim no point is produced, and the two length
    checks decide the outcome whatever the selector, the configuration and
    the values are. *)
Theorem forecast_fails_400_iff (req : ForecastRequest) :
  (fails_400 (forecast req) ↔
     py_len (ds req) ≠ py_len (y req) ∨ py_len (ds req) < 2
     ∨ (¬ recognized (model req) ∧ ∃ step, infer_step_seconds (ds req) = Ok step))
  ∧ (py_len (ds req) ≠ py_len (y req) ∨ py_len (ds req) < 2
     ∨ ¬ recognized (model req) → response_points (forecast req) = [])
  ∧ (py_len (ds req) ≠ py_len (y req) →
     forecast req = Raise (HTTPException 400 "Training data length mismatch."))
  ∧ (py_len (ds req) = py_len (y req) → py_len (ds req) < 2 →
     forecast req = Raise (HTTPException 400 "At least 2 observations are required.")).
Proof.
  split_and!.
  - split.
    + intros [detail H].
      destruct (decide (py_len (ds req) = py_len (y req))) as [Hlen|Hlen];
        [|by left].
      destruct (Z.lt_ge_cases (py_len (ds req)) 2) as [Hsh|Hge];
        [by right; left|].
      right; right.
      rewrite forecast_unfold in H by (done || lia).
      destruct (infer_step_seconds (ds req)) as [step|e] eqn:Hstep.
      2:{ simpl in H. injection H as ->.
          by apply infer_step_seconds_Raise in Hstep. }
      rewrite bind_Ok in H.
      destruct (last_is_Some_len (ds req) ltac:(lia)) as [last_ds Hlast].
      rewrite (py_index_last _ _ Hlast), bind_Ok in H.
      destruct (dispatch req) as [preds|e] eqn:Hd.
      * rewrite bind_Ok in H.
        destruct (for_each _ _ _) as [pts|e] eqn:Hpts; [discriminate|].
        simpl in H. injection H as ->.
        by apply points_loop_Raise in Hpts.
      * simpl in H. injection H as ->. split; [|eauto].
        eapply dispatch_Raise_http; [done | apply nonempty_len; lia | done].
    + intros [Hne|[Hlt|[Hrec [step Hstep]]]].
      * rewrite forecast_mismatch by done. by eexists.
      * destruct (decide (py_len (ds req) = py_len (y req))) as [Heq|Hne].
        -- rewrite forecast_too_short by done. by eexists.
        -- rewrite forecast_mismatch by done. by eexists.
      * destruct (decide (py_len (ds req) = py_len (y req))) as [Heq|Hne].
        2:{ rewrite forecast_mismatch by done. by eexists. }
        destruct (Z.lt_ge_cases (py_len (ds req)) 2) as [Hsh|Hge].
        { rewrite forecast_too_short by done. by eexists. }
        rewrite forecast_unfold by (done || lia).
        destruct (last_is_Some_len (ds req) ltac:(lia)) as [last_ds Hlast].
        rewrite Hstep, bind_Ok, (py_index_last _ _ Hlast), bind_Ok.
        rewrite dispatch_unrecognized by done. by eexists.
  - intros H. destruct (forecast req) as [resp|e] eqn:Hf; [|done].
    apply forecast_Ok_inv in Hf as (? & ? & ? & _).
    destruct H as [?|[?|?]]; (done || lia).
  - apply forecast_mismatch.
  - apply forecast_too_short.
Qed.

(** C7, as stated, fails: a request with equal-length series of two
    observations, horizon 1 and a recognized model whose only projected
    instant lies after the year 9999 gets no first point. *)
Lemma forecast_valid_request_no_point :
  let req := {| model := "PROPHET"; ds := [0; 200000000000]; y := [1; 2]%float;
                horizon := 1; config := None |} in
  py_len (ds req) = py_len (y req) ∧ 2 ≤ py_len (ds req) ∧ 1 ≤ horizon req
  ∧ recognized (model req)
  ∧ forecast req = Raise ValueError
  ∧ response_points (forecast req) !! 0%nat = None.
Proof.
  cbv zeta.
  assert (forecast {| model := "PROPHET"; ds := [0; 200000000000];
                      y := [1; 2]%float; horizon := 1; config := None |}
          = Raise ValueError) as H by (vm_compute; reflexivity).
  split_and!.
  - reflexivity.
  - by vm_compute.
  - by vm_compute.
  - right. reflexivity.
  - exact H.
  - by rewrite H.
Qed.

(** C7, amended: in every response the [k]-th point, for [k] from 1 to
    [horizon], carries the rendering of [last + step * k], which reads back
    as that instant in the form [YYYY-MM-DDTHH:MM:SSZ] (whole seconds, the
    suffix [Z], no offset), with [isFuture] true and both bounds absent. *)
Theorem forecast_points_timestamps (req : ForecastRequest) (resp : ForecastResponse) :
  forecast req = Ok resp →
  ∃ step last_ds,
    infer_step_seconds (ds req) = Ok step ∧ last (ds req) = Some last_ds
    ∧ ∀ k, 1 ≤ k ≤ horizon req →
        ∃ p, points resp !! Z.to_nat (k - 1) = Some p
             ∧ iso_from_seconds (last_ds + step * k) = Ok (t p)
             ∧ parse_iso_utc (t p) = Some (last_ds + step * k)
             ∧ isFuture p = true
             ∧ yhatLower p = None ∧ yhatUpper p = None.
Proof.
  intros H.
  apply forecast_Ok_inv in H as (_ & _ & _ & Hl & step & last_ds & Hs & Hlast & Hp).
  exists step, last_ds. split_and!; [done..|].
  intros k Hk.
  destruct (lookup_lt_is_Some_2 (points resp) (Z.to_nat (k - 1))) as [p Hpk];
    [unfold py_len in Hl; lia|].
  exists p. destruct (Hp _ _ Hpk) as (Hiso & ? & ? & ?).
  replace (1 + Z.of_nat (Z.to_nat (k - 1))) with k in Hiso by lia.
  split_and!; try done. by apply iso_from_seconds_Ok_inv in Hiso as [_ ?].
Qed.

Lemma forecast_points_timestamps_witness :
  ∃ step last_ds,
    infer_step_seconds [0; 86400; 172800; 259200] = Ok step
    ∧ last [0; 86400; 172800; 259200] = Some last_ds
    ∧ ∀ k, 1 ≤ k ≤ 4 →
        ∃ p, [ {| t := "1970-01-05T00:00:00Z"; yhat := 3%float;
                  yhatLower := None; yhatUpper := None; isFuture := true |};
               {| t := "1970-01-06T00:00:00Z"; yhat := 4%float;
                  yhatLower := None; yhatUpper := None; isFuture := true |};
               {| t := "1970-01-07T00:00:00Z"; yhat := 3%float;
                  yhatLower := None; yhatUpper := None; isFuture := true |};
               {| t := "1970-01-08T00:00:00Z"; yhat := 4%float;
                  yhatLower := None; yhatUpper := None; isFuture := true |} ]
             !! Z.to_nat (k - 1) = Some p
             ∧ iso_from_seconds (last_ds + step * k) = Ok (t p)
             ∧ parse_iso_utc (t p) = Some (last_ds + step * k)
             ∧ isFuture p = true
             ∧ yhatLower p = None ∧ yhatUpper p = None.
Proof.
  apply (forecast_points_timestamps
    {| model := "ETS"; ds := [0; 86400; 172800; 259200];
       y := [1; 2; 3; 4]%float; horizon := 4;
       config := Some {[ "seasonLength"%string := PyInt 2 ]} |}
    {| points := _; meta := {| meta_horizon := 4; historyCount := 4;
         intervalLevel := None;
         metrics := {| sampleCount := 0; mae := None; rmse := None;
                       mape := None |} |} |}).
  vm_compute. reflexivity.
Defined.

(** C10, as stated, fails: on timestamps whose two positive differences sum
    to [2^1026] the inferer returns nothing, it raises [OverflowError]. *)
Lemma infer_step_seconds_overflow :
  positive_diffs [0; 2 ^ 1025; 2 ^ 1026] = [2 ^ 1025; 2 ^ 1025]
  ∧ infer_step_seconds [0; 2 ^ 1025; 2 ^ 1026] = Raise OverflowError.
Proof. split; vm_compute; reflexivity. Qed.

(** C10, amended: whenever the inferer returns, and it does for timestamps
    below [2^1022] in magnitude, its result is at least 1; so in every
    response the instants of the points are after the last historical
    timestamp and strictly increase, whatever the order of the input
    timestamps. *)
Theorem infer_step_seconds_positive_and_monotone :
  (∀ ds step, infer_step_seconds ds = Ok step → 1 ≤ step)
  ∧ (∀ ds, Forall (λ x, Z.abs x < 2 ^ 1022) ds →
       ∃ step, infer_step_seconds ds = Ok step ∧ 1 ≤ step)
  ∧ (∀ req resp, forecast req = Ok resp →
       ∃ last_ds, last (ds req) = Some last_ds
       ∧ (∀ (k : nat) p, points resp !! k = Some p →
            ∃ sec, parse_iso_utc (t p) = Some sec ∧ last_ds < sec)
       ∧ (∀ (j k : nat) p q, (j < k)%nat →
            points resp !! j = Some p → points resp !! k = Some q →
            ∃ a b, parse_iso_utc (t p) = Some a ∧ parse_iso_utc (t q) = Some b
                   ∧ a < b))
  ∧ infer_step_seconds [5; 5; 3; 10] = Ok 7.
Proof.
  split_and!.
  - apply infer_step_seconds_ge_1.
  - intros ds H. destruct (infer_step_seconds_total ds H) as [step Hs].
    exists step. split; [done|]. by eapply infer_step_seconds_ge_1.
  - intros req resp H.
    apply forecast_Ok_inv in H as (_ & _ & _ & _ & step & last_ds & Hs & Hlast & Hp).
    apply infer_step_seconds_ge_1 in Hs.
    exists last_ds. split_and!; [done| |].
    + intros k p Hk. destruct (Hp _ _ Hk) as (Hiso & _).
      apply iso_from_seconds_Ok_inv in Hiso as [_ Hparse].
      eexists. split; [done|]. nia.
    + intros j k p q Hjk Hj Hk.
      destruct (Hp _ _ Hj) as (Hp1 & _). destruct (Hp _ _ Hk) as (Hq1 & _).
      apply iso_from_seconds_Ok_inv in Hp1 as [_ Hp1].
      apply iso_from_seconds_Ok_inv in Hq1 as [_ Hq1].
      eexists _, _. split_and!; [done..|]. nia.
  - vm_compute. reflexivity.
Qed.

(** * Further properties of the service *)

(** ** The interval inferer *)

Lemma filter_all {A : Type} (P : A → Prop) `{!∀ x, Decision (P x)} (l : list A) :
  Forall P l → filter P l = l.
Proof.
  induction 1 as [|x l Hx _ IH]; [done|].
  by rewrite filter_cons_True, IH.
Qed.

Lemma filter_none {A : Type} (P : A → Prop) `{!∀ x, Decision (P x)} (l : list A) :
  Forall (λ x, ¬ P x) l → filter P l = [].
Proof.
  induction 1 as [|x l Hx _ IH]; [done|].
  by rewrite filter_cons_False.
Qed.

Lemma successive_diffs_shift (c : Z) (ds : list Z) :
  successive_diffs ((λ x, x + c) <$> ds) = successive_diffs ds.
Proof.
  unfold successive_diffs.
  rewrite <- fmap_tail, zip_with_fmap_l, zip_with_fmap_r.
  apply zip_with_ext; [|done..]. intros a b. lia.
Qed.

(** X1: the inferred step depends on the differences of the timestamps
    only: adding one constant to every timestamp leaves it unchanged. *)
Theorem infer_step_seconds_shift (c : Z) (ds : list Z) :
  infer_step_seconds ((λ x, x + c) <$> ds) = infer_step_seconds ds.
Proof.
  rewrite !infer_step_seconds_unfold.
  unfold positive_diffs. by rewrite successive_diffs_shift.
Qed.

Lemma sorted_diffs_Forall (P : Z → Prop) (ds : list Z) :
  Forall P (positive_diffs ds) → Forall P (merge_sort Z.le (positive_diffs ds)).
Proof. intros H. by rewrite merge_sort_Permutation. Qed.

Lemma sorted_diffs_nonempty (ds : list Z) :
  positive_diffs ds ≠ [] → merge_sort Z.le (positive_diffs ds) ≠ [].
Proof.
  intros Hne Hnil.
  pose proof (merge_sort_Permutation Z.le (positive_diffs ds)) as Hp.
  rewrite Hnil in Hp. by apply Permutation_nil_l in Hp.
Qed.

Lemma infer_step_seconds_range (ds : list Z) (lo hi : Z) :
  positive_diffs ds ≠ [] →
  Forall (λ d, lo ≤ d ≤ hi) (positive_diffs ds) →
  hi < 2 ^ 52 →
  ∃ step, infer_step_seconds ds = Ok step ∧ lo ≤ step ≤ hi.
Proof.
  intros Hne Hall Hhi. rewrite infer_step_seconds_unfold.
  destruct (positive_diffs ds) as [|d0 l] eqn:E; [done|]. rewrite <- E in *.
  pose proof (sorted_diffs_nonempty ds Hne) as Hsne.
  pose proof (sorted_diffs_Forall _ ds Hall) as Hs.
  pose proof (sorted_diffs_Forall _ ds (positive_diffs_pos ds)) as Hpos.
  set (sorted := merge_sort Z.le (positive_diffs ds)) in *.
  rewrite Forall_forall in Hs, Hpos.
  destruct (Z.mod_pos_bound (py_len sorted) 2 ltac:(lia)) as [? ?].
  destruct (decide (py_len sorted `mod` 2 = 1)) as [Hodd|Hev].
  - destruct (median_of_odd sorted Hodd) as (m & Hm & ->).
    exists m. split; [done|]. apply list_elem_of_lookup_2 in Hm. by apply Hs.
  - destruct (median_of_even sorted ltac:(lia) Hsne) as (a & b & Ha & Hb & ->).
    apply list_elem_of_lookup_2 in Ha, Hb.
    pose proof (Hs _ Ha). pose proof (Hs _ Hb).
    pose proof (Hpos _ Ha). pose proof (Hpos _ Hb).
    change (2 ^ 52) with 4503599627370496 in Hhi.
    rewrite int_of_truediv2_exact
      by (change (2 ^ 53) with 9007199254740992; lia).
    eexists. split; [done|]. divlia.
Qed.

(** X2: when every positive difference lies between [lo] and [hi], with
    [hi] below [2^52], the inferer returns a step between [lo] and [hi]: the
    median does not leave the range of the observed gaps. *)
Theorem infer_step_seconds_between (ds : list Z) (lo hi : Z) :
  positive_diffs ds ≠ [] →
  Forall (λ d, lo ≤ d ≤ hi) (positive_diffs ds) →
  hi < 2 ^ 52 →
  ∃ step, infer_step_seconds ds = Ok step ∧ lo ≤ step ≤ hi.
Proof. apply infer_step_seconds_range. Qed.

Lemma infer_step_seconds_between_witness :
  ∃ step, infer_step_seconds [0; 60; 180; 240; 300] = Ok step ∧ 60 ≤ step ≤ 120.
Proof.
  apply (infer_step_seconds_between [0; 60; 180; 240; 300] 60 120).
  - vm_compute. discriminate.
  - vm_compute. repeat constructor; discriminate.
  - reflexivity.
Defined.

Lemma tail_length {A : Type} (l : list A) : length (tail l) = (length l - 1)%nat.
Proof. destruct l; simpl; lia. Qed.

Lemma regular_diffs (a d n : Z) :
  0 < d →
  positive_diffs ((λ i, a + d * i) <$> seqZ 0 n) = replicate (Z.to_nat (n - 1)) d.
Proof.
  intros Hd. symmetry. apply replicate_as_Forall.
  assert (successive_diffs ((λ i, a + d * i) <$> seqZ 0 n)
          = replicate (Z.to_nat (n - 1)) d) as Hsd.
  { symmetry. apply replicate_as_Forall. unfold successive_diffs. split.
    - rewrite length_zip_with, tail_length, length_fmap, length_seqZ. lia.
    - apply Forall_lookup. intros k x Hk.
      rewrite lookup_zip_with, lookup_tail, !list_lookup_fmap in Hk.
      destruct (seqZ 0 n !! k) as [i|] eqn:Hi; [|done].
      destruct (seqZ 0 n !! S k) as [j|] eqn:Hj; [|done].
      apply lookup_seqZ in Hi as [-> _], Hj as [-> _].
      simpl in Hk. injection Hk as <-. lia. }
  unfold positive_diffs. rewrite Hsd.
  rewrite filter_all by (apply Forall_replicate; lia).
  split; [apply length_replicate | by apply Forall_replicate].
Qed.

Lemma infer_step_seconds_grid (a d n : Z) :
  2 ≤ n → 0 < d < 2 ^ 52 →
  infer_step_seconds ((λ i, a + d * i) <$> seqZ 0 n) = Ok d.
Proof.
  intros Hn Hd.
  destruct (infer_step_seconds_range ((λ i, a + d * i) <$> seqZ 0 n) d d)
    as (step & -> & Hstep).
  - rewrite regular_diffs by lia.
    destruct (Z.to_nat (n - 1)) eqn:E; [lia | done].
  - rewrite regular_diffs by lia. apply Forall_replicate. lia.
  - lia.
  - f_equal. lia.
Qed.

(** X3: on a regularly sampled series, [n] timestamps [a, a + d, a + 2d, ...]
    with [n] at least 2 and a spacing [d] between 1 and [2^52], the inferred
    step is the spacing [d]. *)
Theorem infer_step_seconds_regular (a d n : Z) :
  2 ≤ n → 0 < d < 2 ^ 52 →
  infer_step_seconds ((λ i, a + d * i) <$> seqZ 0 n) = Ok d.
Proof. apply infer_step_seconds_grid. Qed.

Lemma infer_step_seconds_regular_witness :
  infer_step_seconds ((λ i, 1700000000 + 3600 * i) <$> seqZ 0 6) = Ok 3600.
Proof.
  apply (infer_step_seconds_regular 1700000000 3600 6).
  - lia.
  - split; [lia | reflexivity].
Defined.

(** X4: a sequence of timestamps that never increases, duplicates included,
    has no positive difference, and the inferer falls back to the default of
    86400 seconds instead of failing. *)
Theorem infer_step_seconds_non_increasing (ds : list Z) :
  (∀ (i : nat) a b, ds !! i = Some a → ds !! S i = Some b → b ≤ a) →
  infer_step_seconds ds = Ok 86400.
Proof.
  intros Hdec. rewrite infer_step_seconds_unfold.
  assert (positive_diffs ds = []) as ->; [|done].
  unfold positive_diffs. apply filter_none.
  unfold successive_diffs. apply Forall_lookup. intros k x Hk.
  rewrite lookup_zip_with, lookup_tail in Hk.
  destruct (ds !! k) as [a|] eqn:Ha; [|done].
  destruct (ds !! S k) as [b|] eqn:Hb; [|done].
  simpl in Hk. injection Hk as <-. pose proof (Hdec k a b Ha Hb). lia.
Qed.

Lemma infer_step_seconds_non_increasing_witness :
  infer_step_seconds [300; 300; 200; 100; 100] = Ok 86400.
Proof.
  apply (infer_step_seconds_non_increasing [300; 300; 200; 100; 100]).
  intros [|[|[|[|[|i]]]]] a b Ha Hb; simpl in *; simplify_eq; lia.
Defined.

(** ** The seasonal-repetition forecaster *)

Lemma forecast_seasonal_naive_short (A : Type) (y : list A) (h s : Z) (v : A) :
  last y = Some v → py_len y < Z.max 1 s →
  forecast_seasonal_naive y h s = Ok (replicate (Z.to_nat h) v).
Proof.
  intros Hlast Hlen. unfold forecast_seasonal_naive.
  destruct y as [|y0 y']; [done|].
  replace (if s <? 1 then 1 else s) with (Z.max 1 s)
    by (destruct (Z.ltb_spec s 1); lia).
  destruct (Z.ltb_spec (py_len (y0 :: y')) (Z.max 1 s)) as [_|?]; [|lia].
  rewrite (py_index_last _ v Hlast), bind_Ok. f_equal.
  rewrite <- py_range_0_length. by apply const_fmap.
Qed.

Lemma forecast_seasonal_naive_members (A : Type) (y : list A) (h s : Z) :
  ∃ preds,
    forecast_seasonal_naive y h s = Ok preds
    ∧ py_len preds = match y with [] => 0 | _ => Z.max 0 h end
    ∧ Forall (λ v, v ∈ y) preds.
Proof.
  destruct (decide (y = [])) as [->|Hne].
  { exists []. by split_and!. }
  assert (match y with [] => 0 | _ => Z.max 0 h end = Z.max 0 h) as ->
    by (by destruct y).
  destruct (Z.le_gt_cases (Z.max 1 s) (py_len y)) as [Hlen|Hlen].
  - destruct (forecast_seasonal_naive_window A y h s Hne Hlen)
      as (pre & window & preds & Hy & _ & Hf & Hl & Hp).
    exists preds. split_and!; [done..|].
    apply Forall_lookup. intros k v Hk.
    pose proof (lookup_lt_Some _ _ _ Hk) as Hlt.
    destruct (Hp (Z.of_nat k) ltac:(unfold py_len in Hl; lia)) as [_ Hw].
    rewrite Nat2Z.id, Hk in Hw. symmetry in Hw.
    apply list_elem_of_lookup_2 in Hw. rewrite Hy. apply elem_of_app. by right.
  - destruct (last y) as [v|] eqn:Hlast.
    2:{ by apply last_None in Hlast. }
    exists (replicate (Z.to_nat h) v). split_and!.
    + by apply forecast_seasonal_naive_short.
    + unfold py_len. rewrite length_replicate. lia.
    + apply Forall_replicate. rewrite last_lookup in Hlast.
      by apply list_elem_of_lookup_2 in Hlast.
Qed.

(** X5: the seasonal forecaster never raises and never invents a value: on
    every history, horizon and season length it returns [max(0, horizon)]
    predictions (none on an empty history), each of them one of the observed
    values. *)
Theorem forecast_seasonal_naive_replays_history (A : Type) (y : list A) (h s : Z) :
  ∃ preds,
    forecast_seasonal_naive y h s = Ok preds
    ∧ py_len preds = match y with [] => 0 | _ => Z.max 0 h end
    ∧ Forall (λ v, v ∈ y) preds.
Proof. apply forecast_seasonal_naive_members. Qed.

(** X6: the predictions of the seasonal forecaster repeat with the clamped
    season length as period: the prediction [max(1, s)] places after
    position [i] equals the one at position [i]. *)
Theorem forecast_seasonal_naive_periodic
    (A : Type) (y : list A) (h s : Z) (preds : list A) (i : Z) :
  forecast_seasonal_naive y h s = Ok preds →
  0 ≤ i → i + Z.max 1 s < h →
  preds !! Z.to_nat (i + Z.max 1 s) = preds !! Z.to_nat i.
Proof.
  intros Hf Hi Hih.
  destruct (decide (y = [])) as [->|Hne].
  { simpl in Hf. injection Hf as <-. done. }
  destruct (Z.le_gt_cases (Z.max 1 s) (py_len y)) as [Hlen|Hlen].
  - destruct (forecast_seasonal_naive_window A y h s Hne Hlen)
      as (pre & window & preds' & _ & _ & Hf' & _ & Hp).
    assert (preds' = preds) as -> by congruence.
    destruct (Hp (i + Z.max 1 s) ltac:(lia)) as [_ H1].
    destruct (Hp i ltac:(lia)) as [_ H2].
    rewrite H1, H2. do 2 f_equal.
    rewrite <- (Z.mul_1_l (Z.max 1 s)) at 1. by rewrite Z.mod_add by lia.
  - destruct (last y) as [v|] eqn:Hlast.
    2:{ by apply last_None in Hlast. }
    rewrite (forecast_seasonal_naive_short A y h s v Hlast Hlen) in Hf.
    injection Hf as <-. rewrite !lookup_replicate_2 by lia. done.
Qed.

Lemma forecast_seasonal_naive_periodic_witness :
  [30; 40; 30; 40; 30] !! Z.to_nat (1 + Z.max 1 2)
  = [30; 40; 30; 40; 30] !! Z.to_nat 1.
Proof.
  apply (forecast_seasonal_naive_periodic Z [10; 20; 30; 40] 5 2).
  - vm_compute. reflexivity.
  - lia.
  - vm_compute. reflexivity.
Defined.

(** X7: a season length of 1 or less, zero and negative values included, is
    clamped to 1: every prediction is the most recent observation, whatever
    the length of the history. *)
Theorem forecast_seasonal_naive_unit_season (A : Type) (y : list A) (h s : Z) (v : A) :
  last y = Some v → s ≤ 1 →
  forecast_seasonal_naive y h s = Ok (replicate (Z.to_nat h) v).
Proof.
  intros Hlast Hs.
  assert (y ≠ []) as Hne by (intros ->; discriminate).
  assert (Z.max 1 s ≤ py_len y) as Hlen
    by (unfold py_len; destruct y; simpl in *; [done | lia]).
  destruct (forecast_seasonal_naive_window A y h s Hne Hlen)
    as (pre & window & preds & Hy & Hw & -> & Hl & Hp).
  f_equal. symmetry. apply replicate_as_Forall.
  split; [unfold py_len in Hl; lia|].
  replace (Z.max 1 s) with 1 in * by lia.
  assert (window = [v]) as ->.
  { destruct window as [|w [|w' window]]; unfold py_len in Hw; simpl in Hw; try lia.
    rewrite Hy, last_snoc in Hlast. by injection Hlast as ->. }
  apply Forall_lookup. intros k x Hk.
  pose proof (lookup_lt_Some _ _ _ Hk) as Hlt.
  destruct (Hp (Z.of_nat k) ltac:(unfold py_len in Hl; lia)) as [_ Hx].
  rewrite Nat2Z.id, Hk, Z.mod_1_r in Hx. simpl in Hx. by injection Hx.
Qed.

Lemma forecast_seasonal_naive_unit_season_witness :
  forecast_seasonal_naive [10; 20; 30] 4 (-5) = Ok (replicate (Z.to_nat 4) 30).
Proof.
  apply (forecast_seasonal_naive_unit_season Z [10; 20; 30] 4 (-5) 30).
  - reflexivity.
  - lia.
Defined.

(** ** The linear-trend forecaster *)

Lemma forecast_linear_trend_single (v : float) (h : Z) :
  forecast_linear_trend [v] h = Ok (replicate (Z.to_nat h) v).
Proof.
  unfold forecast_linear_trend. simpl. f_equal.
  rewrite <- py_range_0_length. by apply const_fmap.
Qed.

(** X8: the linear-trend forecaster never raises: on every history and
    horizon it returns [max(0, horizon)] predictions, none on an empty
    history, and on a single observation each of them is that observation. *)
Theorem forecast_linear_trend_short_history (y : list float) (h : Z) :
  (∃ preds,
     forecast_linear_trend y h = Ok preds
     ∧ py_len preds = match y with [] => 0 | _ => Z.max 0 h end)
  ∧ (∀ v, y = [v] → forecast_linear_trend y h = Ok (replicate (Z.to_nat h) v)).
Proof.
  split.
  - destruct (decide (y = [])) as [->|Hne].
    { exists []. by split. }
    destruct (forecast_linear_trend_total y h Hne) as (preds & ? & ?).
    exists preds. split; [done|]. by destruct y.
  - intros v ->. apply forecast_linear_trend_single.
Qed.

(** *** NaN observations *)

Lemma nan_add_l (x y : float) : float_is_nan x → float_is_nan (x + y).
Proof. unfold float_is_nan. intros H. by rewrite add_spec, H. Qed.

Lemma nan_add_r (x y : float) : float_is_nan y → float_is_nan (x + y).
Proof.
  unfold float_is_nan. intros H. rewrite add_spec, H. by destruct (Prim2SF x).
Qed.

Lemma nan_sub_l (x y : float) : float_is_nan x → float_is_nan (x - y).
Proof. unfold float_is_nan. intros H. by rewrite sub_spec, H. Qed.

Lemma nan_sub_r (x y : float) : float_is_nan y → float_is_nan (x - y).
Proof.
  unfold float_is_nan. intros H. rewrite sub_spec, H. by destruct (Prim2SF x).
Qed.

Lemma nan_mul_r (x y : float) : float_is_nan y → float_is_nan (x * y).
Proof.
  unfold float_is_nan. intros H. rewrite mul_spec, H. by destruct (Prim2SF x).
Qed.

Lemma nan_div_l (x y : float) : float_is_nan x → float_is_nan (x / y).
Proof. unfold float_is_nan. intros H. by rewrite div_spec, H. Qed.

Lemma py_sum_nan_acc (l : list float) (acc : float) :
  float_is_nan acc → float_is_nan (foldl PrimFloat.add acc l).
Proof.
  revert acc. induction l as [|x l IH]; intros acc H; [done|].
  simpl. by apply IH, nan_add_l.
Qed.

Lemma py_sum_nan (l : list float) (acc v : float) :
  v ∈ l → float_is_nan v → float_is_nan (foldl PrimFloat.add acc l).
Proof.
  intros Hin Hv. revert acc. induction Hin as [v l|v x l _ IH]; intros acc; simpl.
  - by apply py_sum_nan_acc, nan_add_r.
  - apply IH, Hv.
Qed.

(** X9: a NaN among the observations is not rejected and poisons the whole
    forecast: every prediction of the linear-trend forecaster is then a
    NaN. *)
Theorem forecast_linear_trend_nan (y : list float) (h : Z) (v : float) :
  v ∈ y → float_is_nan v →
  ∃ preds,
    forecast_linear_trend y h = Ok preds
    ∧ py_len preds = Z.max 0 h
    ∧ Forall float_is_nan preds.
Proof.
  intros Hin Hv.
  destruct (Z.le_gt_cases 2 (py_len y)) as [Hn|Hn].
  - rewrite forecast_linear_trend_unfold by done.
    destruct (foldl _ _ _) as [var cov]. cbv zeta.
    eexists. split_and!; [reflexivity| |].
    + unfold py_len. rewrite length_fmap, py_range_0_length. lia.
    + apply Forall_fmap, Forall_forall. intros j _. simpl.
      apply nan_add_l, nan_sub_l, nan_div_l. by eapply py_sum_nan.
  - destruct y as [|y0 [|y1 y']]; [by apply elem_of_nil in Hin| |
      unfold py_len in Hn; simpl in Hn; lia].
    apply list_elem_of_singleton in Hin as ->.
    rewrite forecast_linear_trend_single.
    exists (replicate (Z.to_nat h) y0). split_and!; [done| |].
    + unfold py_len. rewrite length_replicate. lia.
    + by apply Forall_replicate.
Qed.

Lemma forecast_linear_trend_nan_witness :
  ∃ preds,
    forecast_linear_trend [1; nan; 3]%float 2 = Ok preds
    ∧ py_len preds = Z.max 0 2
    ∧ Forall float_is_nan preds.
Proof.
  apply (forecast_linear_trend_nan [1; nan; 3]%float 2 nan).
  - set_solver.
  - reflexivity.
Defined.

(** ** The timestamp renderer *)



(** X11: the rendering loses nothing: two instants with the same text are
    the same instant. *)
Theorem iso_from_seconds_injective (a b : Z) (s : string) :
  iso_from_seconds a = Ok s → iso_from_seconds b = Ok s → a = b.
Proof.
  intros Ha Hb.
  apply iso_from_seconds_Ok_inv in Ha as [_ Ha], Hb as [_ Hb]. congruence.
Qed.

Lemma iso_from_seconds_injective_witness : 1700000000 = 1700000000.
Proof.
  apply (iso_from_seconds_injective 1700000000 1700000000 "2023-11-14T22:13:20Z");
    vm_compute; reflexivity.
Defined.

(** ** The handler *)


(** Everything a response is made of. *)
Lemma forecast_Ok_parts (req : ForecastRequest) (resp : ForecastResponse) :
  forecast req = Ok resp →
  py_len (ds req) = py_len (y req) ∧ 2 ≤ py_len (ds req)
  ∧ ∃ step last_ds,
      infer_step_seconds (ds req) = Ok step ∧ last (ds req) = Some last_ds
      ∧ dispatch req = Ok (yhat <$> points resp)
      ∧ (∀ (k : nat) (p : ForecastPoint), points resp !! k = Some p →
           iso_from_seconds (last_ds + step * (1 + Z.of_nat k)) = Ok (t p))
      ∧ meta resp = {| meta_horizon := horizon req;
                       historyCount := py_len (ds req);
                       intervalLevel := None;
                       metrics := {| sampleCount := 0; mae := None;
                                     rmse := None; mape := None |} |}.
Proof.
  intros H.
  destruct (decide (py_len (ds req) = py_len (y req))) as [Hlen|Hlen].
  2:{ rewrite forecast_mismatch in H by done. discriminate. }
  destruct (Z.lt_ge_cases (py_len (ds req)) 2) as [Hsh|Hge].
  { rewrite forecast_too_short in H by done. discriminate. }
  rewrite forecast_unfold in H by (done || lia).
  apply bind_Ok_inv in H as (step & Hstep & H).
  destruct (last_is_Some_len (ds req) ltac:(lia)) as [last_ds Hlast].
  rewrite (py_index_last _ _ Hlast), bind_Ok in H.
  apply bind_Ok_inv in H as (preds & Hpreds & H).
  apply bind_Ok_inv in H as (pts & Hpts & [= <-]). simpl.
  apply points_loop_Ok_inv in Hpts as [Hl Hpts].
  split_and!; [done | lia |].
  exists step, last_ds. split_and!; [done..| | |done].
  - rewrite Hpreds. f_equal.
    apply (list_eq_same_length _ _ (length preds)); [by rewrite length_fmap|done|].
    intros k a b Hk Ha Hb. rewrite list_lookup_fmap in Hb.
    destruct (pts !! k) as [p|] eqn:Hp; [|done]. injection Hb as <-.
    destruct (Hpts k p Hp) as (_ & Hy & _). congruence.
  - intros k p Hp. by destruct (Hpts k p Hp) as (? & _).
Qed.

(** X12: every response echoes the requested horizon, counts the
    observations of both series in [historyCount], and leaves the intervals
    and the accuracy metrics unset with a sample count of 0. *)
Theorem forecast_meta (req : ForecastRequest) (resp : ForecastResponse) :
  forecast req = Ok resp →
  meta_horizon (meta resp) = horizon req
  ∧ historyCount (meta resp) = py_len (ds req)
  ∧ historyCount (meta resp) = py_len (y req)
  ∧ intervalLevel (meta resp) = None
  ∧ metrics (meta resp)
    = {| sampleCount := 0; mae := None; rmse := None; mape := None |}.
Proof.
  intros H. apply forecast_Ok_parts in H as (Hlen & _ & _ & _ & _ & _ & _ & _ & ->).
  by rewrite <- Hlen.
Qed.

Lemma forecast_meta_witness :
  meta_horizon (meta trend_example_response) = horizon trend_example_request
  ∧ historyCount (meta trend_example_response) = py_len (ds trend_example_request)
  ∧ historyCount (meta trend_example_response) = py_len (y trend_example_request)
  ∧ intervalLevel (meta trend_example_response) = None
  ∧ metrics (meta trend_example_response)
    = {| sampleCount := 0; mae := None; rmse := None; mape := None |}.
Proof.
  apply (forecast_meta trend_example_request trend_example_response).
  vm_compute. reflexivity.
Defined.

(** X13: the values of the points are the predictions of the selected
    forecaster, in order: with [ETS] the seasonal forecaster on the season
    length read from the configuration, so every value is one of the
    observations; with [PROPHET] the linear-trend forecaster. *)
Theorem forecast_values (req : ForecastRequest) (resp : ForecastResponse) :
  forecast req = Ok resp →
  (model req = "ETS"%string →
   (∃ s, season_length_of (config req) = Ok s
         ∧ forecast_seasonal_naive (y req) (horizon req) s
           = Ok (yhat <$> points resp))
   ∧ Forall (λ p, yhat p ∈ y req) (points resp))
  ∧ (model req = "PROPHET"%string →
     forecast_linear_trend (y req) (horizon req) = Ok (yhat <$> points resp)).
Proof.
  intros H. apply forecast_Ok_parts in H as (_ & _ & _ & _ & _ & _ & Hd & _).
  split; intros Hm.
  - rewrite dispatch_ETS in Hd by done.
    apply bind_Ok_inv in Hd as (s & Hs & Hf).
    split; [eauto|].
    destruct (forecast_seasonal_naive_members float (y req) (horizon req) s)
      as (preds & Hf' & _ & Hall).
    assert (preds = yhat <$> points resp) as -> by congruence.
    by apply Forall_fmap in Hall.
  - by rewrite dispatch_PROPHET in Hd.
Qed.

Lemma forecast_values_witness :
  (model seasonal_example_request = "ETS"%string →
   (∃ s, season_length_of (config seasonal_example_request) = Ok s
         ∧ forecast_seasonal_naive (y seasonal_example_request)
             (horizon seasonal_example_request) s
           = Ok (yhat <$> points seasonal_example_response))
   ∧ Forall (λ p, yhat p ∈ y seasonal_example_request)
            (points seasonal_example_response))
  ∧ (model seasonal_example_request = "PROPHET"%string →
     forecast_linear_trend (y seasonal_example_request)
       (horizon seasonal_example_request)
     = Ok (yhat <$> points seasonal_example_response)).
Proof.
  apply (forecast_values seasonal_example_request seasonal_example_response).
  vm_compute. reflexivity.
Defined.

Lemma dispatch_same (req req' : ForecastRequest) :
  model req = model req' → y req = y req' → horizon req = horizon req' →
  (model req = "ETS"%string →
   default ∅ (config req) !! "seasonLength"%string
   = default ∅ (config req') !! "seasonLength"%string) →
  dispatch req = dispatch req'.
Proof.
  intros Hm Hy Hh Hcfg. unfold dispatch. rewrite <- Hm, <- Hy, <- Hh.
  destruct (String.eqb_spec (model req) "ETS") as [E|_]; [|done].
  unfold season_length_of. by rewrite (Hcfg E).
Qed.

(** X14: the configuration is read through its [seasonLength] entry only,
    and only by the [ETS] model: two requests that agree on the model, the
    series and the horizon, and with [ETS] on that entry, get the same
    outcome, whatever else their configurations hold. *)
Theorem forecast_config_irrelevant (req req' : ForecastRequest) :
  model req = model req' → ds req = ds req' → y req = y req' →
  horizon req = horizon req' →
  (model req = "ETS"%string →
   default ∅ (config req) !! "seasonLength"%string
   = default ∅ (config req') !! "seasonLength"%string) →
  forecast req = forecast req'.
Proof.
  intros Hm Hds Hy Hh Hcfg.
  pose proof (dispatch_same req req' Hm Hy Hh Hcfg) as Hd.
  unfold forecast. by rewrite <- Hds, <- Hy, <- Hh, <- Hd.
Qed.

Lemma forecast_config_irrelevant_witness :
  forecast {| model := "ETS"; ds := [0; 60; 120]; y := [1; 2; 3]%float;
              horizon := 2;
              config := Some {[ "seasonLength"%string := PyInt 2 ]} |}
  = forecast {| model := "ETS"; ds := [0; 60; 120]; y := [1; 2; 3]%float;
                horizon := 2;
                config := Some {[ "seasonLength"%string := PyInt 2;
                                  "intervalWidth"%string := PyStr "wide" ]} |}.
Proof.
  apply forecast_config_irrelevant; reflexivity.
Defined.

Lemma regular_last (a d n : Z) :
  1 ≤ n → last ((λ i, a + d * i) <$> seqZ 0 n) = Some (a + d * (n - 1)).
Proof.
  intros Hn. rewrite last_lookup, length_fmap, length_seqZ, list_lookup_fmap.
  rewrite lookup_seqZ_lt by lia. simpl. do 3 f_equal. lia.
Qed.

(** X15: on a regularly sampled series the forecast continues the grid: for
    timestamps [a, a + d, ..., a + (n - 1) d] with [n] at least 2 and a
    spacing [d] between 1 and [2^52], the [k]-th point of a response denotes
    the instant [a + (n - 1 + k) d]. *)
Theorem forecast_continues_grid
    (req : ForecastRequest) (resp : ForecastResponse) (a d n : Z) :
  2 ≤ n → 0 < d < 2 ^ 52 →
  ds req = (λ i, a + d * i) <$> seqZ 0 n →
  forecast req = Ok resp →
  ∀ k, 1 ≤ k ≤ horizon req →
    ∃ p, points resp !! Z.to_nat (k - 1) = Some p
         ∧ parse_iso_utc (t p) = Some (a + d * (n - 1 + k)).
Proof.
  intros Hn Hd Hds H k Hk.
  pose proof (forecast_Ok_inv req resp H) as (_ & _ & _ & Hl & _).
  apply forecast_Ok_parts in H
    as (_ & _ & step & last_ds & Hstep & Hlast & _ & Hp & _).
  rewrite Hds, infer_step_seconds_grid in Hstep by done.
  rewrite Hds, regular_last in Hlast by lia.
  injection Hstep as <-. injection Hlast as <-.
  destruct (lookup_lt_is_Some_2 (points resp) (Z.to_nat (k - 1))) as [p Hpk];
    [unfold py_len in Hl; lia|].
  exists p. split; [done|].
  specialize (Hp _ _ Hpk). apply iso_from_seconds_Ok_inv in Hp as [_ ->].
  f_equal. rewrite Z2Nat.id by lia. lia.
Qed.

Lemma forecast_continues_grid_witness :
  ∃ p, points seasonal_example_response !! Z.to_nat (2 - 1) = Some p
       ∧ parse_iso_utc (t p) = Some (0 + 86400 * (4 - 1 + 2)).
Proof.
  apply (forecast_continues_grid seasonal_example_request
           seasonal_example_response 0 86400 4).
  - lia.
  - split; [lia | reflexivity].
  - reflexivity.
  - vm_compute. reflexivity.
  - simpl. lia.
Defined.

(** X16: the timestamps of the points are decided by the historical
    timestamps and the horizon alone: two requests that agree on them and
    both get a response get the same timestamps, whatever their models,
    values and configurations are. *)
Theorem forecast_timestamps_from_ds
    (req req' : ForecastRequest) (resp resp' : ForecastResponse) :
  forecast req = Ok resp → forecast req' = Ok resp' →
  ds req = ds req' → horizon req = horizon req' →
  t <$> points resp = t <$> points resp'.
Proof.
  intros H H' Hds Hh.
  pose proof (forecast_Ok_inv req resp H) as (_ & _ & _ & Hl & _).
  pose proof (forecast_Ok_inv req' resp' H') as (_ & _ & _ & Hl' & _).
  apply forecast_Ok_parts in H
    as (_ & _ & step & last_ds & Hstep & Hlast & _ & Hp & _).
  apply forecast_Ok_parts in H'
    as (_ & _ & step' & last_ds' & Hstep' & Hlast' & _ & Hp' & _).
  rewrite <- Hds in Hstep', Hlast'.
  assert (step' = step) as -> by congruence.
  assert (last_ds' = last_ds) as -> by congruence.
  apply (list_eq_same_length _ _ (length (points resp)));
    [rewrite length_fmap; unfold py_len in *; lia | by rewrite length_fmap |].
  intros k a b _ Ha Hb. rewrite list_lookup_fmap in Ha, Hb.
  destruct (points resp !! k) as [p|] eqn:E; [|done].
  destruct (points resp' !! k) as [p'|] eqn:E'; [|done].
  simpl in Ha, Hb. injection Ha as <-. injection Hb as <-.
  pose proof (Hp _ _ E). pose proof (Hp' _ _ E'). congruence.
Qed.

Lemma forecast_timestamps_from_ds_witness :
  t <$> points trend_example_response
  = t <$> [future_point "1970-01-04T00:00:00Z" 3;
           future_point "1970-01-05T00:00:00Z" 3].
Proof.
  apply (forecast_timestamps_from_ds
           trend_example_request
           {| model := "ETS"; ds := [0; 86400; 172800]; y := [1; 2; 3]%float;
              horizon := 2; config := None |}
           trend_example_response
           {| points := [future_point "1970-01-04T00:00:00Z" 3;
                         future_point "1970-01-05T00:00:00Z" 3];
              meta := unset_meta 2 3 |});
    vm_compute; reflexivity.
Defined.



(** X18: the values of the points are decided by the model, the observed
    values, the horizon and the [seasonLength] entry alone: two requests
    that agree on them and both get a response get the same values, whatever
    their timestamps are. *)
Theorem forecast_values_from_y
    (req req' : ForecastRequest) (resp resp' : ForecastResponse) :
  forecast req = Ok resp → forecast req' = Ok resp' →
  model req = model req' → y req = y req' → horizon req = horizon req' →
  (model req = "ETS"%string →
   default ∅ (config req) !! "seasonLength"%string
   = default ∅ (config req') !! "seasonLength"%string) →
  yhat <$> points resp = yhat <$> points resp'.
Proof.
  intros H H' Hm Hy Hh Hcfg.
  apply forecast_Ok_parts in H as (_ & _ & _ & _ & _ & _ & Hd & _).
  apply forecast_Ok_parts in H' as (_ & _ & _ & _ & _ & _ & Hd' & _).
  rewrite (dispatch_same req req' Hm Hy Hh Hcfg) in Hd. congruence.
Qed.

Lemma forecast_values_from_y_witness :
  yhat <$> points trend_example_response
  = yhat <$> [future_point "2023-11-14T22:13:40Z" 4;
              future_point "2023-11-14T22:13:50Z" 5].
Proof.
  apply (forecast_values_from_y
           trend_example_request
           {| model := "PROPHET"; ds := [1700000000; 1700000000; 1700000010];
              y := [1; 2; 3]%float; horizon := 2; config := None |}
           trend_example_response
           {| points := [future_point "2023-11-14T22:13:40Z" 4;
                         future_point "2023-11-14T22:13:50Z" 5];
              meta := unset_meta 2 3 |}); reflexivity.
Defined.
